(** * excel_to_uvm_ral: register spreadsheet to UVM RAL text

    A shallow embedding of [src/excel_to_uvm_ral.py]: the field parser
    [parse_field] and the generator [excel_to_uvm_ral], followed by the
    properties of the two that the specification states.

    Conventions of the embedding.
    - A Python [str] is a Rocq [string], read as the sequence of its code
      points: the character of number [n] is the code point [n].  The
      texts of the model are thus those whose code points are all below
      256; a text with a higher code point is outside the type.  On these
      texts the classes and methods of [Py] below are those of Python:
      [str.strip] and the regex class [\s] take the twelve whitespace code
      points below 256, the regex class [\d] and [int] take the ten digits,
      the only decimal digits below 256, and [str.lower] lowers the
      capital letters of both halves of the range.
    - A Python [int] is a [Z]; [int(...)] of a digit string is the unbounded
      decimal value (the interpreter's optional cap on the number of digits
      is not modelled).
    - The output file is the list of the strings passed to [f.write], in
      order; the file's text is their concatenation.
    - The spreadsheet loader [pd.read_excel] is outside the model: the
      generator starts from the loaded frame.
    - Every exception raised inside [excel_to_uvm_ral] is caught by its
      handler (line 189).  The run then ends in a [failure]: those that
      the frame decides before the output file is opened are modelled
      (no first row, a first row without text); a frame in which a name
      the run reads cells by is two columns leaves the model.  Opening
      the output file and writing to it are taken to succeed. *)

From Stdlib Require Import List String Ascii ZArith Bool Lia Arith.
From Stdlib Require Import Numbers.DecimalString Numbers.DecimalPos.
Import ListNotations.

Open Scope string_scope.
Open Scope Z_scope.
Open Scope list_scope.

Infix "+++" := String.append (right associativity, at level 60).

(** ** Characters and Python string methods *)

Module Py.

Definition nl : string := String (ascii_of_nat 10) EmptyString.
Definition tab : string := String (ascii_of_nat 9) EmptyString.
Definition dq : string := String (ascii_of_nat 34) EmptyString.

Definition between (lo hi : nat) (c : ascii) : bool :=
  let n := nat_of_ascii c in (Nat.leb lo n && Nat.leb n hi)%bool.

(** [str.isspace], the characters [str.strip] removes and the regex class
    [\s]: below 256 these are 9..13, 28..32, 133 (U+0085, next line) and
    160 (U+00A0, no-break space). *)
Definition isspace (c : ascii) : bool :=
  (between 9 13 c || between 28 32 c || between 133 133 c
   || between 160 160 c)%bool.

(** The regex class [\d], the decimal digits: below 256 these are the ten
    digits 48..57 (the superscript digits 178, 179 and 185 are not decimal
    digits). *)
Definition isdigit (c : ascii) : bool := between 48 57 c.

Definition isupper (c : ascii) : bool := between 65 90 c.
Definition islower (c : ascii) : bool := between 97 122 c.

(** [[A-Za-z_]] *)
Definition ident_start (c : ascii) : bool :=
  (isupper c || islower c || Ascii.eqb c "_")%bool.

(** [[A-Za-z0-9_]] *)
Definition ident_char (c : ascii) : bool :=
  (ident_start c || isdigit c)%bool.

Fixpoint lstrip (s : string) : string :=
  match s with
  | EmptyString => EmptyString
  | String c s' => if isspace c then lstrip s' else s
  end.

Fixpoint rstrip (s : string) : string :=
  match s with
  | EmptyString => EmptyString
  | String c s' =>
      match rstrip s' with
      | EmptyString => if isspace c then EmptyString else String c EmptyString
      | r => String c r
      end
  end.

(** [s.strip()] *)
Definition strip (s : string) : string := rstrip (lstrip s).

(** The capital letters below 256: 65..90, 192..214 and 216..222 (215 is
    the multiplication sign); the small letter of each is 32 further. *)
Definition has_lower (c : ascii) : bool :=
  (isupper c || between 192 214 c || between 216 222 c)%bool.

Definition lower_char (c : ascii) : ascii :=
  if has_lower c then ascii_of_nat (nat_of_ascii c + 32) else c.

(** [s.lower()] *)
Fixpoint lower (s : string) : string :=
  match s with
  | EmptyString => EmptyString
  | String c s' => String (lower_char c) (lower s')
  end.

(** Truthiness of a [str]: non-empty. *)
Definition truthy (s : string) : bool :=
  match s with EmptyString => false | String _ _ => true end.

(** [sep.join(xs)] *)
Fixpoint join (sep : string) (xs : list string) : string :=
  match xs with
  | [] => EmptyString
  | [x] => x
  | x :: rest => x +++ sep +++ join sep rest
  end.

Definition digit_value (c : ascii) : Z := Z.of_nat (nat_of_ascii c) - 48.

(** The decimal value of the digits of [s], continuing from [acc]. *)
Definition int_from (acc : Z) (s : string) : Z :=
  fold_left (fun acc c => 10 * acc + digit_value c) (list_ascii_of_string s) acc.

(** [int(s)] for a string of decimal digits. *)
Definition int (s : string) : Z := int_from 0 s.

(** [str(n)] for an [int]. *)
Definition str_of_int (n : Z) : string := NilZero.string_of_int (Z.to_int n).

(** The longest prefix of [s] whose characters satisfy [p], and the rest. *)
Fixpoint span (p : ascii -> bool) (s : string) : string * string :=
  match s with
  | EmptyString => (EmptyString, EmptyString)
  | String c s' =>
      if p c then let (a, b) := span p s' in (String c a, b)
      else (EmptyString, s)
  end.

(** [s.startswith(p)] *)
Fixpoint startswith (p s : string) : bool :=
  match p, s with
  | EmptyString, _ => true
  | String a p', String b s' => (Ascii.eqb a b && startswith p' s')%bool
  | String _ _, EmptyString => false
  end.

End Py.

(** ** [parse_field] *)

(** The optional tail of the pattern (whitespace, bracket, digits, colon,
    digits, bracket), tried at the text that follows the identifier.  Every
    quantifier in it is followed by a character outside its class, so the
    greedy choice is the only one that can succeed and no backtracking is
    needed. *)
Definition match_range (s : string) : option (string * string) :=
  let (_, s1) := Py.span Py.isspace s in
  match s1 with
  | String "[" s2 =>
      let (d1, s3) := Py.span Py.isdigit s2 in
      match d1, s3 with
      | String _ _, String ":" s4 =>
          let (d2, s5) := Py.span Py.isdigit s4 in
          match d2, s5 with
          | String _ _, String "]" _ => Some (d1, d2)
          | _, _ => None
          end
      | _, _ => None
      end
  | _ => None
  end.

(** [re.match(pattern, s)] for the pattern of [parse_field]: group 1 is one
    character of [A-Za-z_] followed by as many of [A-Za-z0-9_] as there are;
    then, optionally, whitespace, an opening bracket, group 2 (digits), a
    colon, group 3 (digits) and a closing bracket.  [None] when there is no
    match at the start of [s], otherwise groups 1, 2 and 3.  Shortening
    group 1 leaves an identifier character next, which neither whitespace
    nor the bracket accepts, so group 1 is the longest identifier. *)
Definition re_match (s : string)
  : option (string * option string * option string) :=
  match s with
  | EmptyString => None
  | String c _ =>
      if Py.ident_start c then
        let (g1, rest) := Py.span Py.ident_char s in
        match match_range rest with
        | Some (g2, g3) => Some (g1, Some g2, Some g3)
        | None => Some (g1, None, None)
        end
      else None
  end.

(** Truthiness of a regex group: present and non-empty. *)
Definition group_truthy (g : option string) : bool :=
  match g with Some s => Py.truthy s | None => false end.

Definition group_int (g : option string) : Z :=
  match g with Some s => Py.int s | None => 0 end.

(** The four results of [parse_field]: name, size, lsb, msb; each is
    [None] exactly when Python returns [None] there. *)
Definition parsed : Type := option string * option Z * option Z * option Z.

Definition parse_field (field_str : string) : parsed :=
  match re_match field_str with
  | Some (g1, g2, g3) =>
      let field_name := Py.strip g1 in
      let msb := if group_truthy g2 then group_int g2 else 0 in
      let lsb := if group_truthy g3 then group_int g3 else 0 in
      let size :=
        if (negb (msb =? 0) && negb (lsb =? 0))%bool then msb - lsb + 1 else 1 in
      (Some field_name, Some size, Some lsb, Some msb)
  | None => (None, None, None, None)
  end.

(** ** The loaded frame *)

(** A spreadsheet cell as the generator sees it: missing ([NaN]), or a
    value, carried as the text Python's [str] gives for it. *)
Inductive cell : Type :=
| NaN
| Val (s : string).

(** [pd.notna(c)] *)
Definition notna (c : cell) : bool :=
  match c with NaN => false | Val _ => true end.

(** A cell interpolated in an f-string. *)
Definition fmt_cell (c : cell) : string :=
  match c with NaN => "nan" | Val s => s end.

(** [.fillna(EmptyString).astype(str)] on one cell. *)
Definition fillna_astype_str (c : cell) : string :=
  match c with NaN => EmptyString | Val s => s end.

(** One data row, by the seven columns the generator reads (the names are
    those of [column_map]). *)
Record row : Type := mkRow {
  register_name : cell;
  offset : cell;
  read_write : cell;
  fields : cell;
  default_value : cell;
  reset_value : cell;
  description : cell
}.

(** The frame read with [header=None]: its first row ([df.iloc[0]]), where
    [Some s] is a text cell and [None] any other cell, and the rows below
    it ([df[1:]]), each seen through the seven columns that carry the
    required labels.  An empty sheet is the frame without a first row,
    [first_row = []].  The rows are read through the labels only in a run
    that gets that far: [excel_to_uvm_ral] below first settles whether the
    first row can be read as labels and whether each label is one
    column. *)
Record frame : Type := mkFrame {
  first_row : list (option string);
  body : list row
}.

(** [df.iloc[0].str.strip()] on a first row that holds text: a cell that
    is not text becomes a missing label.  (On a first row without text
    the expression raises, or gives only missing labels: see
    [excel_to_uvm_ral].) *)
Definition columns (df : frame) : list (option string) :=
  map (option_map Py.strip) (first_row df).

Definition required_columns : list string :=
  ["Register Name"; "Offset"; "Read/Write"; "Fields"; "Default value";
   "Reset value"; "Description"].

Definition label_eqb (l : option string) (col : string) : bool :=
  match l with Some s => String.eqb s col | None => false end.

(** [col in df.columns] *)
Definition has_column (df : frame) (col : string) : bool :=
  existsb (fun l => label_eqb l col) (columns df).

Definition missing_columns (df : frame) : list string :=
  filter (fun col => negb (has_column df col)) required_columns.

(** A row after [register_name] and [fields] went through
    [fillna(EmptyString).astype(str)]. *)
Record srow : Type := mkSrow {
  s_register_name : string;
  s_read_write : cell;
  s_fields : string;
  s_default_value : cell
}.

Definition prepare (r : row) : srow :=
  {| s_register_name := fillna_astype_str (register_name r);
     s_read_write := read_write r;
     s_fields := fillna_astype_str (fields r);
     s_default_value := default_value r |}.

(** ** The output file *)

Definition file : Type := list string.

(** [f.write(s)] *)
Definition write (f : file) (s : string) : file := f ++ [s].

Definition write_all (f : file) (ss : list string) : file :=
  fold_left write ss f.

(** ** Emission of one register's fields *)

Definition fmt_name (o : option string) : string :=
  match o with Some s => s | None => "None" end.

Definition fmt_int (o : option Z) : string :=
  match o with Some n => Py.str_of_int n | None => "None" end.

Definition truthy_name (o : option string) : bool :=
  match o with Some s => Py.truthy s | None => false end.

Definition truthy_int (o : option Z) : bool :=
  match o with Some n => negb (n =? 0) | None => false end.

Definition is_not_none {A : Type} (o : option A) : bool :=
  match o with Some _ => true | None => false end.

(** [field_name and size and lsb is not None] *)
Definition accepted (p : parsed) : bool :=
  let '(field_name, size, lsb, _) := p in
  (truthy_name field_name && truthy_int size && is_not_none lsb)%bool.

Definition sep2 : string := "  //---------------------------------------" +++ Py.nl.

Definition declaration (p : parsed) : list string :=
  let '(field_name, _, _, _) := p in
  ["    rand uvm_reg_field " +++ fmt_name field_name +++ ";" +++ Py.nl].

(** [{default_value if pd.notna(default_value) else 0}] *)
Definition fmt_reset (default_value : cell) : string :=
  if notna default_value then fmt_cell default_value else Py.str_of_int 0.

Definition configuration (p : parsed) (read_write default_value : cell)
  : list string :=
  let '(field_name, size, lsb, msb) := p in
  let n := fmt_name field_name in
  [ "    " +++ n +++ " = uvm_reg_field::type_id::create(" +++ Py.dq +++ n
      +++ Py.dq +++ ");" +++ Py.nl;
    "    " +++ n +++ ".configure(.parent(this)," +++ Py.nl;
    "                           .size(" +++ fmt_int size +++ ")," +++ Py.nl;
    "                           .lsb_pos(" +++ fmt_int lsb +++ ")," +++ Py.nl;
    "                           .msb_pos(" +++ fmt_int msb +++ ")," +++ Py.nl;
    "                           .access(" +++ Py.dq +++ fmt_cell read_write
      +++ Py.dq +++ ")," +++ Py.nl;
    "                           .volatile(0)," +++ Py.nl;
    "                           .reset(" +++ fmt_reset default_value +++ "),"
      +++ Py.nl;
    "                           .has_reset(1)," +++ Py.nl;
    "                           .is_rand(1)," +++ Py.nl;
    "                           .individually_accessible(0));" +++ Py.nl ].

(** Body of the first loop of the mid-stream close (lines 79-82). *)
Definition declare_step (f : file) (field : string) : file :=
  let p := parse_field (Py.strip field) in
  if accepted p then write_all f (declaration p) else f.

(** Body of the second loop of the mid-stream close (lines 87-100). *)
Definition configure_step (read_write default_value : cell)
  (f : file) (field : string) : file :=
  let p := parse_field (Py.strip field) in
  if accepted p then write_all f (configuration p read_write default_value)
  else f.

(** Body of the only loop of the end-of-table close (lines 127-141). *)
Definition last_step (read_write default_value : cell)
  (f : file) (field : string) : file :=
  let p := parse_field (Py.strip field) in
  if accepted p then
    write_all f (declaration p ++ configuration p read_write default_value)
  else f.

(** Lines 78-102: closing the open register when the next one starts. *)
Definition close_register (fs : list string) (read_write default_value : cell)
  (f : file) : file :=
  let f := write f sep2 in
  let f := fold_left declare_step fs f in
  let f := write f sep2 in
  let f := write f ("  function void build;" +++ Py.nl) in
  let f := fold_left (configure_step read_write default_value) fs f in
  let f := write f ("  endfunction" +++ Py.nl) in
  write f ("endclass" +++ Py.nl +++ Py.nl).

(** Lines 126-143: closing the last register after the loop. *)
Definition close_last_register (fs : list string)
  (read_write default_value : cell) (f : file) : file :=
  let f := write f sep2 in
  let f := fold_left (last_step read_write default_value) fs f in
  let f := write f ("  endfunction" +++ Py.nl) in
  write f ("endclass" +++ Py.nl +++ Py.nl).

(** Lines 105-118: class header and constructor of a register. *)
Definition open_register (reg_name : string) (f : file) : file :=
  write_all f
    [ "class " +++ reg_name +++ " extends uvm_reg;" +++ Py.nl;
      "  `uvm_object_utils(" +++ reg_name +++ ")" +++ Py.nl +++ Py.nl;
      sep2;
      "  // Constructor" +++ Py.nl;
      sep2;
      "  function new(string name = " +++ Py.dq +++ reg_name +++ Py.dq +++ ");"
        +++ Py.nl;
      "    super.new(name, 32, UVM_NO_COVERAGE);" +++ Py.nl;
      "  endfunction" +++ Py.nl +++ Py.nl ].

(** ** The scan over the rows *)

(** The variables that live across iterations of the row loop and after
    it.  [st_read_write] and [st_default_value] are the loop variables
    [read_write] and [default_value]: unbound before the first iteration,
    for which [NaN] stands in (they are read only once a register is open,
    hence after an iteration). *)
Record scan : Type := mkScan {
  current_reg : option string;
  field_list : list string;
  st_read_write : cell;
  st_default_value : cell;
  out : file
}.

(** One iteration of [for _, row in df.iterrows()] (lines 65-121). *)
Definition scan_row (st : scan) (r : srow) : scan :=
  let reg_name := Py.strip (s_register_name r) in
  let read_write := s_read_write r in
  let fields_str := s_fields r in
  let default_value := s_default_value r in
  let st1 :=
    if Py.truthy reg_name then
      let f :=
        if truthy_name (current_reg st)
        then close_register (field_list st) read_write default_value (out st)
        else out st in
      let f := open_register reg_name f in
      mkScan (Some reg_name) [] read_write default_value f
    else
      mkScan (current_reg st) (field_list st) read_write default_value (out st)
  in
  if Py.truthy fields_str then
    mkScan (current_reg st1) (field_list st1 ++ [Py.strip fields_str])
           (st_read_write st1) (st_default_value st1) (out st1)
  else st1.

(** [pd.unique]: the distinct values in order of first appearance. *)
Fixpoint unique_from (seen : list string) (xs : list string) : list string :=
  match xs with
  | [] => []
  | x :: rest =>
      if existsb (String.eqb x) seen then unique_from seen rest
      else x :: unique_from (x :: seen) rest
  end.

Definition unique (xs : list string) : list string := unique_from [] xs.

(** [df['register_name'].dropna().unique()]: the column holds only [str]
    values after [fillna]/[astype], so [dropna] removes nothing. *)
Definition register_names (rows : list srow) : list string :=
  unique (map s_register_name rows).

Definition sep4 : string :=
  "    //---------------------------------------" +++ Py.nl.

Definition rule : string :=
  "//-------------------------------------------------------------------------"
  +++ Py.nl.

Definition instance_step (f : file) (reg_name : string) : file :=
  write f ("  rand " +++ reg_name +++ " reg_" +++ Py.lower reg_name +++ ";"
           +++ Py.nl).

Definition build_step (f : file) (reg_name : string) : file :=
  let inst := "reg_" +++ Py.lower reg_name in
  write_all f
    [ "    " +++ inst +++ " = " +++ reg_name +++ "::type_id::create(" +++ Py.dq
        +++ inst +++ Py.dq +++ ");" +++ Py.nl;
      "    " +++ inst +++ ".build();" +++ Py.nl;
      "    " +++ inst +++ ".configure(this);" +++ Py.nl ].

Definition map_step (f : file) (reg_name : string) : file :=
  write f ("    default_map.add_reg(reg_" +++ Py.lower reg_name +++ ", 'h0, "
           +++ Py.dq +++ "RW" +++ Py.dq +++ ");" +++ Py.nl).

(** Lines 146-183: the register block class. *)
Definition register_block (names : list string) (f : file) : file :=
  let f := write_all f
    [ rule;
      "//" +++ Py.tab +++ "Register Block Definition" +++ Py.nl;
      rule;
      "class dma_reg_model extends uvm_reg_block;" +++ Py.nl;
      "  `uvm_object_utils(dma_reg_model)" +++ Py.nl +++ Py.nl;
      sep2;
      "  // Register Instances" +++ Py.nl;
      sep2 ] in
  let f := fold_left instance_step names f in
  let f := write_all f
    [ Py.nl +++ sep2;
      "  // Constructor" +++ Py.nl;
      sep2;
      "  function new (string name = " +++ Py.dq +++ Py.dq +++ ");" +++ Py.nl;
      "    super.new(name, build_coverage(UVM_NO_COVERAGE));" +++ Py.nl;
      "  endfunction" +++ Py.nl +++ Py.nl;
      sep2;
      "  // Build Phase" +++ Py.nl;
      sep2;
      "  function void build();" +++ Py.nl ] in
  let f := fold_left build_step names f in
  let f := write_all f
    [ sep4;
      "    // Memory Map Creation and Register Map" +++ Py.nl;
      sep4;
      "    default_map = create_map(" +++ Py.dq +++ "my_map" +++ Py.dq
        +++ ", 0, 4, UVM_LITTLE_ENDIAN);" +++ Py.nl ] in
  let f := fold_left map_step names f in
  write_all f
    [ "    lock_model();" +++ Py.nl;
      "  endfunction" +++ Py.nl;
      "endclass" +++ Py.nl +++ Py.nl ].

Definition guard : list string :=
  [ "`ifndef REG_MODEL" +++ Py.nl; "`define REG_MODEL" +++ Py.nl +++ Py.nl ].

Definition initial_scan : scan :=
  mkScan None [] NaN NaN (write_all [] guard).

(** Lines 124-143. *)
Definition finish (st : scan) : file :=
  if truthy_name (current_reg st)
  then close_last_register (field_list st) (st_read_write st)
         (st_default_value st) (out st)
  else out st.

(** Lines 56-183: everything written between opening the output file and
    closing it. *)
Definition generate (rows : list srow) : file :=
  let st := fold_left scan_row rows initial_scan in
  register_block (register_names rows) (finish st).

(** ** [excel_to_uvm_ral] *)

(** [column_map]: the label of each column the run reads and the name
    [df.rename] gives it. *)
Definition column_map : list (string * string) :=
  [ ("Register Name", "register_name"); ("Offset", "offset");
    ("Read/Write", "read_write"); ("Fields", "fields");
    ("Default value", "default_value"); ("Reset value", "reset_value");
    ("Description", "description") ].

(** The first row holds a text cell. *)
Definition has_text (first : list (option string)) : bool :=
  existsb (fun c => match c with Some _ => true | None => false end) first.

(** How many columns carry the label. *)
Definition occurrences (df : frame) (name : string) : nat :=
  List.length (filter (fun l => label_eqb l name) (columns df)).

(** After [df.rename], exactly one column carries the new name: the label
    and the new name together occur once among the trimmed labels. *)
Definition one_column (df : frame) (entry : string * string) : bool :=
  Nat.eqb (occurrences df (fst entry) + occurrences df (snd entry)) 1.

(** Each name the run reads a cell by, [row['fields']] and the like, is
    one column of the frame. *)
Definition columns_distinct (df : frame) : bool :=
  forallb (one_column df) column_map.

(** Where a run leaves the path of the model. *)
Inductive failure : Type :=
| no_first_row
    (** [df.iloc[0]] on an empty sheet raises [IndexError] (line 29). *)
| first_row_not_text
    (** The first row holds no text cell.  As pandas types such a row,
        [.str] raises [AttributeError] (line 29), or the labels are all
        missing and line 36 reports the seven required labels.  In
        either case the run prints one line that begins with [Error:]
        and returns before the output file is opened. *)
| label_not_one_column.
    (** All required labels are there, but a name the run reads cells by
        is carried by two columns (a label repeated, or a column that
        already has the new name).  [row[name]] is then no cell; what the
        run does with it is decided inside pandas and is not modelled:
        neither the text printed nor the state of the output file, for
        which [written] holds no information here. *)

(** What the run printed: a line whose text the source fixes (lines 36
    and 187), or a line decided by a [failure]. *)
Inductive report : Type :=
| line (text : string)
| error (e : failure).

(** What a run leaves behind: the report printed, and the output file,
    [None] when it was never opened. *)
Record run : Type := mkRun {
  printed : report;
  written : option file
}.

(** Lines 24-190.  The handler of line 189 catches every exception, so the
    function always returns. *)
Definition excel_to_uvm_ral (df : frame) (output_file : string) : run :=
  match first_row df with
  | [] => mkRun (error no_first_row) None
  | _ :: _ =>
      if negb (has_text (first_row df)) then
        mkRun (error first_row_not_text) None
      else
        match missing_columns df with
        | _ :: _ =>
            mkRun (line ("Error: Missing required columns: "
                         +++ Py.join ", " (missing_columns df) +++ Py.nl))
                  None
        | [] =>
            if columns_distinct df then
              mkRun (line ("UVM RAL file generated: " +++ output_file
                           +++ Py.nl))
                    (Some (generate (map prepare (body df))))
            else mkRun (error label_not_one_column) None
        end
  end.

(** ** What each piece writes, apart from the file it is given

    Every emitter only appends.  The lines one emitter adds are what it
    writes to the empty file. *)

Definition declare_lines (field : string) : list string :=
  declare_step [] field.

Definition configure_lines (read_write default_value : cell) (field : string)
  : list string :=
  configure_step read_write default_value [] field.

Definition last_lines (read_write default_value : cell) (field : string)
  : list string :=
  last_step read_write default_value [] field.

Definition close_lines (fs : list string) (read_write default_value : cell)
  : list string :=
  close_register fs read_write default_value [].

Definition close_last_lines (fs : list string) (read_write default_value : cell)
  : list string :=
  close_last_register fs read_write default_value [].

Definition open_lines (reg_name : string) : list string :=
  open_register reg_name [].

Definition block_lines (names : list string) : list string :=
  register_block names [].

(** The descriptors of a field list that pass the acceptance test, in the
    order of the list. *)
Definition accepted_fields (fs : list string) : list parsed :=
  filter accepted (map (fun field => parse_field (Py.strip field)) fs).

(** A row starts a register: its trimmed register name is non-empty. *)
Definition starts_register (r : srow) : bool :=
  Py.truthy (Py.strip (s_register_name r)).

(** What a row adds to the field list (lines 120-121). *)
Definition field_entry (r : srow) : list string :=
  if Py.truthy (s_fields r) then [Py.strip (s_fields r)] else [].

Definition class_line (reg_name : string) : string :=
  "class " +++ reg_name +++ " extends uvm_reg;" +++ Py.nl.

Definition block_class_line : string :=
  "class dma_reg_model extends uvm_reg_block;" +++ Py.nl.

(** The written line opens a class. *)
Definition opens_class (line : string) : bool := Py.startswith "class " line.

(** The text begins with an identifier: a first character in [A-Za-z_]. *)
Definition begins_identifier (s : string) : bool :=
  match s with
  | EmptyString => false
  | String c _ => Py.ident_start c
  end.

(** The field list entry parses and its size is not zero. *)
Definition nonzero_width (field : string) : Prop :=
  exists n w l m,
    parse_field (Py.strip field) = (Some n, Some w, Some l, Some m) /\ w <> 0.

(** The field list entry parses and its size is positive. *)
Definition positive_width (field : string) : Prop :=
  exists n w l m,
    parse_field (Py.strip field) = (Some n, Some w, Some l, Some m) /\ 0 < w.

(** The text is empty or begins with a character that is not whitespace. *)
Definition no_leading_space (s : string) : Prop :=
  match s with
  | EmptyString => True
  | String c _ => Py.isspace c = false
  end.

(** ** Texts of the form identifier and range *)

(** Every character of the text satisfies [p]. *)
Fixpoint all_chars (p : ascii -> bool) (s : string) : bool :=
  match s with
  | EmptyString => true
  | String c s' => (p c && all_chars p s')%bool
  end.

(** The text is an identifier: a character of [A-Za-z_] followed by
    characters of [A-Za-z0-9_]. *)
Definition is_identifier (s : string) : bool :=
  (begins_identifier s && all_chars Py.ident_char s)%bool.

(** The field text made of an identifier, a space and the range from
    [M] down to [L] in brackets, the bounds written in decimal. *)
Definition range_text (id : string) (M L : Z) : string :=
  id +++ " [" +++ Py.str_of_int M +++ ":" +++ Py.str_of_int L +++ "]".

(** The text is empty or begins with a character that [p] rejects. *)
Definition stops (p : ascii -> bool) (rest : string) : Prop :=
  match rest with
  | EmptyString => True
  | String c _ => p c = false
  end.

(** ** Tables used as examples *)

Definition full_header : list (option string) :=
  map Some required_columns.

(** A header row without the column [Offset]. *)
Definition header_without_offset : list (option string) :=
  [Some "Register Name"; Some "Read/Write"; Some "Fields";
   Some "Default value"; Some "Reset value"; Some "Description"].

(** A row given by the four cells the generator reads. *)
Definition mk_row (name access field_text default : cell) : row :=
  mkRow name NaN access field_text default NaN NaN.

(** The same row with an empty field cell. *)
Definition clear_fields (r : row) : row :=
  mkRow (register_name r) (offset r) (read_write r) NaN (default_value r)
        (reset_value r) (description r).

(** The two rows agree on every cell but the field cell. *)
Definition differ_only_in_fields (r1 r2 : row) : Prop :=
  register_name r1 = register_name r2 /\ offset r1 = offset r2
  /\ read_write r1 = read_write r2 /\ default_value r1 = default_value r2
  /\ reset_value r1 = reset_value r2 /\ description r1 = description r2.

(** ** Relations between two scans *)

(** No register is open in either scan, and the two agree on everything
    but the field list. *)
Definition both_unopened (st st' : scan) : Prop :=
  current_reg st = None /\ current_reg st' = None
  /\ st_read_write st = st_read_write st'
  /\ st_default_value st = st_default_value st'
  /\ out st = out st'.

(** The two scans agree on everything but the field list, and their field
    lists have the same accepted descriptors. *)
Definition same_accepted (st st' : scan) : Prop :=
  current_reg st = current_reg st'
  /\ st_read_write st = st_read_write st'
  /\ st_default_value st = st_default_value st'
  /\ out st = out st'
  /\ accepted_fields (field_list st) = accepted_fields (field_list st').

(** The name is one of the two given. *)
Definition one_of (a b : string) (n : string) : bool :=
  (String.eqb n a || String.eqb n b)%bool.

(** Register CTRL, read-write with default 5 and one field, followed by
    register STATUS, read-only without a default. *)
Definition table_ctrl_status : frame :=
  mkFrame full_header
    [ mk_row (Val "CTRL") (Val "RW") (Val "EN [3:1]") (Val "5");
      mk_row (Val "STATUS") (Val "RO") (Val "BUSY") NaN ].

(** One register with one field. *)
Definition table_ctrl : frame :=
  mkFrame full_header
    [ mk_row (Val "CTRL") (Val "RW") (Val "EN [3:1]") (Val "5") ].

(** One register whose second field is on a row of its own, with an empty
    register-name cell. *)
Definition table_ctrl_two_rows : frame :=
  mkFrame full_header
    [ mk_row (Val "CTRL") (Val "RW") (Val "EN [3:1]") (Val "5");
      mk_row NaN (Val "RW") (Val "MODE [7:4]") (Val "5") ].

Definition access_line (access : string) : string :=
  "                           .access(" +++ Py.dq +++ access +++ Py.dq +++ "),"
  +++ Py.nl.

Definition reset_line (reset : string) : string :=
  "                           .reset(" +++ reset +++ ")," +++ Py.nl.

Definition build_line : string := "  function void build;" +++ Py.nl.

(** The line is among those written. *)
Definition has_line (line : string) (f : file) : bool :=
  existsb (String.eqb line) f.

(** ** Texts used to state what the parser accepts *)

(** The field text made of an identifier, any whitespace, the range from
    [M] down to [L] in brackets, and any text after the closing bracket. *)
Definition spaced_range_text (id ws : string) (M L : Z) (trailing : string)
  : string :=
  id +++ ws +++ "[" +++ Py.str_of_int M +++ ":" +++ Py.str_of_int L +++ "]"
  +++ trailing.

(** ** Reading the lines of one kind off the output *)

(** The written line declares a field. *)
Definition declares_field (line : string) : bool :=
  Py.startswith "    rand uvm_reg_field " line.

(** The written line closes a class. *)
Definition closes_class (line : string) : bool :=
  Py.startswith "endclass" line.

(** The written line is a preprocessor directive. *)
Definition is_directive (line : string) : bool :=
  Py.startswith "`" line.

(** The rows from the first one that starts a register. *)
Fixpoint from_first_register (rows : list srow) : list srow :=
  match rows with
  | [] => []
  | r :: rest => if starts_register r then rows else from_first_register rest
  end.

(** The lines of one kind that the scan and the close at the end of the
    table write for [rows], when the lines of that kind are [O n] in the
    opening of register [n], [f p] per accepted descriptor [p] and [C] once
    in each close of a register; [opened] tells whether a register is open
    before the rows. *)
Fixpoint project (O : string -> list string) (f : parsed -> list string)
  (C : list string) (opened : bool) (rows : list srow) : list string :=
  match rows with
  | [] => if opened then C else []
  | r :: rest =>
      if starts_register r then
        (if opened then C else [])
        ++ O (Py.strip (s_register_name r))
        ++ flat_map f (accepted_fields (field_entry r))
        ++ project O f C true rest
      else
        (if opened then flat_map f (accepted_fields (field_entry r)) else [])
        ++ project O f C opened rest
  end.

(** The two scans agree on everything but the two loop variables. *)
Definition same_but_cells (st st' : scan) : Prop :=
  current_reg st = current_reg st'
  /\ field_list st = field_list st'
  /\ out st = out st'.


(** Rows that start no register. *)
Definition table_without_register : list row :=
  [ mk_row NaN (Val "RW") (Val "EN [3:1]") (Val "5");
    mk_row (Val "  ") (Val "RO") (Val "MODE") NaN ].

(** Register A, its name followed by a blank, then register B, then
    register A again. *)
Definition table_padded_A_B_A : frame :=
  mkFrame full_header
    [ mk_row (Val "A ") (Val "RW") (Val "F1 [7:4]") (Val "0");
      mk_row (Val "B") (Val "RO") NaN NaN;
      mk_row (Val "A") (Val "RW") (Val "F3") (Val "1") ].

(** ** Facts on lists *)

Section ListFacts.

Context {A B C : Type}.

Lemma fold_left_append (step : file -> A -> file)
  (lines : A -> list string) :
  (forall f x, step f x = f ++ lines x) ->
  forall xs f, fold_left step xs f = f ++ flat_map lines xs.
Proof.
  intros Hstep xs.
  induction xs as [|x xs IH]; intro f; simpl.
  - now rewrite app_nil_r.
  - rewrite IH, Hstep. now rewrite <- app_assoc.
Qed.

Lemma flat_map_filter_map (g : A -> B) (p : B -> bool)
  (h : B -> list C) (xs : list A) :
  flat_map (fun x => if p (g x) then h (g x) else []) xs
  = flat_map h (filter p (map g xs)).
Proof.
  induction xs as [|x xs IH]; simpl; [reflexivity|].
  destruct (p (g x)); simpl; now rewrite IH.
Qed.

Lemma filter_flat_map_nil (p : B -> bool) (g : A -> list B) xs :
  (forall x, filter p (g x) = []) -> filter p (flat_map g xs) = [].
Proof.
  intros H. induction xs as [|x xs IH]; simpl; [reflexivity|].
  now rewrite filter_app, H, IH.
Qed.

Lemma filter_cons_inv (p : A -> bool) (l : list A) a t :
  filter p l = a :: t ->
  exists l1 l2,
    l = l1 ++ a :: l2
    /\ forallb (fun x => negb (p x)) l1 = true
    /\ p a = true
    /\ filter p l2 = t.
Proof.
  induction l as [|x l IH]; simpl; [discriminate|].
  destruct (p x) eqn:E.
  - intros H. injection H as -> <-. now exists [], l.
  - intros H. destruct (IH H) as (l1 & l2 & -> & H1 & Ha & H2).
    exists (x :: l1), l2. simpl. now rewrite E.
Qed.

Lemma filter_nil_forallb (p : A -> bool) (l : list A) :
  filter p l = [] -> forallb (fun x => negb (p x)) l = true.
Proof.
  induction l as [|x l IH]; simpl; [reflexivity|].
  destruct (p x); [discriminate|exact IH].
Qed.

End ListFacts.

(** ** Basic facts on writing *)

Lemma write_all_app (f : file) (ss : list string) : write_all f ss = f ++ ss.
Proof.
  unfold write_all. revert f.
  induction ss as [|s ss IH]; intro f; simpl.
  - now rewrite app_nil_r.
  - rewrite IH. unfold write. now rewrite <- app_assoc.
Qed.

Lemma declare_step_app f field : declare_step f field = f ++ declare_lines field.
Proof.
  unfold declare_lines, declare_step.
  destruct (accepted _); rewrite ?write_all_app; simpl; now rewrite ?app_nil_r.
Qed.

Lemma configure_step_app rw dv f field :
  configure_step rw dv f field = f ++ configure_lines rw dv field.
Proof.
  unfold configure_lines, configure_step.
  destruct (accepted _); rewrite ?write_all_app; simpl; now rewrite ?app_nil_r.
Qed.

Lemma last_step_app rw dv f field :
  last_step rw dv f field = f ++ last_lines rw dv field.
Proof.
  unfold last_lines, last_step.
  destruct (accepted _); rewrite ?write_all_app; simpl; now rewrite ?app_nil_r.
Qed.

Lemma declare_lines_eq field :
  declare_lines field =
  let p := parse_field (Py.strip field) in
  if accepted p then declaration p else [].
Proof.
  unfold declare_lines, declare_step. cbv zeta.
  destruct (accepted _); [now rewrite write_all_app|reflexivity].
Qed.

Lemma configure_lines_eq rw dv field :
  configure_lines rw dv field =
  let p := parse_field (Py.strip field) in
  if accepted p then configuration p rw dv else [].
Proof.
  unfold configure_lines, configure_step. cbv zeta.
  destruct (accepted _); [now rewrite write_all_app|reflexivity].
Qed.

Lemma last_lines_eq rw dv field :
  last_lines rw dv field =
  let p := parse_field (Py.strip field) in
  if accepted p then declaration p ++ configuration p rw dv else [].
Proof.
  unfold last_lines, last_step. cbv zeta.
  destruct (accepted _); [now rewrite write_all_app|reflexivity].
Qed.

Lemma close_lines_eq fs rw dv :
  close_lines fs rw dv =
  [sep2] ++ flat_map declare_lines fs
  ++ [sep2; "  function void build;" +++ Py.nl]
  ++ flat_map (configure_lines rw dv) fs
  ++ ["  endfunction" +++ Py.nl; "endclass" +++ Py.nl +++ Py.nl].
Proof.
  unfold close_lines, close_register, write.
  rewrite (fold_left_append _ _ declare_step_app).
  rewrite (fold_left_append _ _ (configure_step_app rw dv)).
  simpl. repeat (rewrite <- app_assoc; simpl). reflexivity.
Qed.

Lemma close_register_app fs rw dv f :
  close_register fs rw dv f = f ++ close_lines fs rw dv.
Proof.
  rewrite close_lines_eq.
  unfold close_register, write.
  rewrite (fold_left_append _ _ declare_step_app).
  rewrite (fold_left_append _ _ (configure_step_app rw dv)).
  repeat (rewrite <- app_assoc; simpl). reflexivity.
Qed.

Lemma close_last_lines_eq fs rw dv :
  close_last_lines fs rw dv =
  [sep2] ++ flat_map (last_lines rw dv) fs
  ++ ["  endfunction" +++ Py.nl; "endclass" +++ Py.nl +++ Py.nl].
Proof.
  unfold close_last_lines, close_last_register, write.
  rewrite (fold_left_append _ _ (last_step_app rw dv)).
  simpl. repeat (rewrite <- app_assoc; simpl). reflexivity.
Qed.

Lemma close_last_register_app fs rw dv f :
  close_last_register fs rw dv f = f ++ close_last_lines fs rw dv.
Proof.
  rewrite close_last_lines_eq.
  unfold close_last_register, write.
  rewrite (fold_left_append _ _ (last_step_app rw dv)).
  repeat (rewrite <- app_assoc; simpl). reflexivity.
Qed.

Lemma open_register_app reg_name f :
  open_register reg_name f = f ++ open_lines reg_name.
Proof.
  unfold open_lines, open_register. now rewrite !write_all_app.
Qed.

Lemma instance_step_app f n : instance_step f n = f ++ instance_step [] n.
Proof. reflexivity. Qed.

Lemma build_step_app f n : build_step f n = f ++ build_step [] n.
Proof. unfold build_step. now rewrite !write_all_app. Qed.

Lemma map_step_app f n : map_step f n = f ++ map_step [] n.
Proof. reflexivity. Qed.

Lemma register_block_app names f :
  register_block names f = f ++ block_lines names.
Proof.
  unfold block_lines, register_block.
  rewrite !write_all_app.
  rewrite !(fold_left_append _ _ instance_step_app).
  rewrite !(fold_left_append _ _ build_step_app).
  rewrite !(fold_left_append _ _ map_step_app).
  simpl. repeat (rewrite <- app_assoc; simpl). reflexivity.
Qed.

(** ** One iteration of the scan, by the kind of row *)

Lemma scan_row_start st r :
  starts_register r = true ->
  scan_row st r =
  mkScan (Some (Py.strip (s_register_name r))) (field_entry r)
    (s_read_write r) (s_default_value r)
    ((if truthy_name (current_reg st)
      then out st ++ close_lines (field_list st) (s_read_write r)
                       (s_default_value r)
      else out st) ++ open_lines (Py.strip (s_register_name r))).
Proof.
  unfold starts_register, scan_row, field_entry. intros ->.
  rewrite open_register_app, close_register_app.
  destruct (Py.truthy (s_fields r)); reflexivity.
Qed.

Lemma scan_row_continue st r :
  starts_register r = false ->
  scan_row st r =
  mkScan (current_reg st) (field_list st ++ field_entry r)
    (s_read_write r) (s_default_value r) (out st).
Proof.
  unfold starts_register, scan_row, field_entry. intros ->.
  destruct (Py.truthy (s_fields r)); simpl; now rewrite ?app_nil_r.
Qed.

(** Rows that start no register leave the file and the open register as
    they are, and add their field cells to the field list. *)
Lemma scan_continuation cs :
  forallb (fun r => negb (starts_register r)) cs = true ->
  forall st,
  current_reg (fold_left scan_row cs st) = current_reg st /\
  field_list (fold_left scan_row cs st)
    = field_list st ++ flat_map field_entry cs /\
  out (fold_left scan_row cs st) = out st.
Proof.
  induction cs as [|r cs IH]; simpl; intros Hcs st.
  - now rewrite app_nil_r.
  - apply andb_true_iff in Hcs as [Hr Hcs].
    apply negb_true_iff in Hr.
    destruct (IH Hcs (scan_row st r)) as (Hc & Hf & Ho).
    rewrite Hc, Hf, Ho, (scan_row_continue _ _ Hr). simpl.
    now rewrite <- app_assoc.
Qed.

Lemma finish_app st :
  finish st =
  out st ++ (if truthy_name (current_reg st)
             then close_last_lines (field_list st) (st_read_write st)
                    (st_default_value st)
             else []).
Proof.
  unfold finish. destruct (truthy_name _).
  - apply close_last_register_app.
  - now rewrite app_nil_r.
Qed.

(** ** Facts on [strip] and on the parser *)

Lemma ident_start_not_space c : Py.ident_start c = true -> Py.isspace c = false.
Proof.
  destruct c as [[] [] [] [] [] [] [] []]; vm_compute; congruence.
Qed.

Lemma ident_start_char c : Py.ident_start c = true -> Py.ident_char c = true.
Proof. unfold Py.ident_char. now intros ->. Qed.

Lemma rstrip_idempotent s : Py.rstrip (Py.rstrip s) = Py.rstrip s.
Proof.
  induction s as [|c s IH]; simpl; [reflexivity|].
  destruct (Py.rstrip s) as [|d r] eqn:E.
  - destruct (Py.isspace c) eqn:Ec; simpl; [reflexivity|now rewrite Ec].
  - change (Py.rstrip (String c (String d r)))
      with (match Py.rstrip (String d r) with
            | EmptyString =>
                if Py.isspace c then EmptyString else String c EmptyString
            | String a b => String c (String a b)
            end).
    now rewrite IH.
Qed.

Lemma lstrip_no_leading_space s : no_leading_space (Py.lstrip s).
Proof.
  induction s as [|c s IH]; simpl; [exact I|].
  destruct (Py.isspace c) eqn:E; [exact IH|exact E].
Qed.

Lemma rstrip_no_leading_space s :
  no_leading_space s -> no_leading_space (Py.rstrip s).
Proof.
  destruct s as [|c s]; simpl; [trivial|]. intros Hc.
  destruct (Py.rstrip s); [rewrite Hc|]; exact Hc.
Qed.

Lemma lstrip_fixed s : no_leading_space s -> Py.lstrip s = s.
Proof. destruct s as [|c s]; simpl; [trivial|now intros ->]. Qed.

Lemma strip_idempotent s : Py.strip (Py.strip s) = Py.strip s.
Proof.
  unfold Py.strip.
  rewrite (lstrip_fixed (Py.rstrip (Py.lstrip s))).
  - apply rstrip_idempotent.
  - apply rstrip_no_leading_space, lstrip_no_leading_space.
Qed.

Lemma strip_truthy_of_ident c s :
  Py.ident_start c = true -> Py.truthy (Py.strip (String c s)) = true.
Proof.
  intros Hc. apply ident_start_not_space in Hc.
  unfold Py.strip. simpl. rewrite Hc. simpl.
  destruct (Py.rstrip s); [now rewrite Hc|reflexivity].
Qed.

Lemma parse_field_no_identifier s :
  begins_identifier s = false -> parse_field s = (None, None, None, None).
Proof.
  unfold parse_field, re_match.
  destruct s as [|c s]; simpl; [reflexivity|now intros ->].
Qed.

(** A text that begins with an identifier parses, to a non-empty name and
    a size given by the two bounds. *)
Lemma parse_field_identifier s :
  begins_identifier s = true ->
  exists n l m,
    parse_field s =
      (Some n,
       Some (if (negb (m =? 0) && negb (l =? 0))%bool then m - l + 1 else 1),
       Some l, Some m)
    /\ Py.truthy n = true.
Proof.
  destruct s as [|c s]; simpl; [discriminate|]. intros Hc.
  unfold parse_field, re_match. rewrite Hc.
  simpl. rewrite (ident_start_char _ Hc).
  destruct (Py.span Py.ident_char s) as [a b].
  destruct (match_range b) as [[g2 g3]|]; eexists _, _, _;
    (split; [reflexivity|now apply strip_truthy_of_ident]).
Qed.

Lemma accepted_iff_nonzero field :
  accepted (parse_field (Py.strip field)) = true <-> nonzero_width field.
Proof.
  unfold nonzero_width.
  destruct (begins_identifier (Py.strip field)) eqn:E.
  - destruct (parse_field_identifier _ E) as (n & l & m & -> & Hn).
    unfold accepted. simpl. rewrite Hn. simpl. rewrite andb_true_r. split.
    + intros H. eexists _, _, _, _. split; [reflexivity|].
      apply negb_true_iff, Z.eqb_neq in H. exact H.
    + intros (n' & w & l' & m' & Heq & Hw). injection Heq as <- <- <- <-.
      now apply negb_true_iff, Z.eqb_neq.
  - rewrite (parse_field_no_identifier _ E). split; [discriminate|].
    intros (n & w & l & m & Heq & _). discriminate.
Qed.

(** ** The field parser on ranges *)

(** C1 (defect of the code).  On the example of the docstring of
    [parse_field] the size is 1 and not 16: the test [msb and lsb] that
    guards [msb - lsb + 1] is false for a bound that is 0, as it is for a
    bound that is absent, although the comment on that line gives 1 as the
    size when no range is written. *)
Theorem parse_field_zero_lsb_example :
  parse_field "BUFFER_SIZE [15:0]" = (Some "BUFFER_SIZE", Some 1, Some 0, Some 15).
Proof. vm_compute. reflexivity. Qed.

(** Whatever the text, a parsed lsb or msb of 0 gives the size 1, and two
    non-zero bounds give [msb - lsb + 1]. *)
Lemma parse_field_size s n w l m :
  parse_field s = (Some n, Some w, Some l, Some m) ->
  (l = 0 \/ m = 0 -> w = 1) /\ (l <> 0 -> m <> 0 -> w = m - l + 1).
Proof.
  intros H.
  destruct (begins_identifier s) eqn:E.
  - destruct (parse_field_identifier _ E) as (n' & l' & m' & Heq & _).
    rewrite Heq in H. injection H as <- <- <- <-.
    destruct (Z.eqb_spec m' 0), (Z.eqb_spec l' 0); simpl; split; intros; lia.
  - rewrite (parse_field_no_identifier _ E) in H. discriminate.
Qed.

(** ** The parser on a text made of an identifier and a range *)

Lemma span_all p s rest :
  all_chars p s = true -> stops p rest ->
  Py.span p (s +++ rest) = (s, rest).
Proof.
  induction s as [|c s IH]; simpl; intros Hs Hr.
  - destruct rest as [|c r]; simpl in *; [reflexivity|now rewrite Hr].
  - apply andb_true_iff in Hs as [Hc Hs]. now rewrite Hc, (IH Hs Hr).
Qed.

Lemma ident_char_not_space c : Py.ident_char c = true -> Py.isspace c = false.
Proof.
  destruct c as [[] [] [] [] [] [] [] []]; vm_compute; congruence.
Qed.

Lemma rstrip_identifier s :
  all_chars Py.ident_char s = true -> Py.rstrip s = s.
Proof.
  induction s as [|c s IH]; simpl; [reflexivity|]. intros H.
  apply andb_true_iff in H as [Hc Hs]. rewrite (IH Hs).
  rewrite (ident_char_not_space _ Hc). now destruct s.
Qed.

Lemma strip_identifier s : is_identifier s = true -> Py.strip s = s.
Proof.
  unfold is_identifier. intros H. apply andb_true_iff in H as [Hb Hs].
  unfold Py.strip. rewrite lstrip_fixed; [now apply rstrip_identifier|].
  destruct s as [|c s]; simpl in *; [exact I|].
  now apply ident_start_not_space.
Qed.

Ltac eval_digit :=
  match goal with
  | |- context [Py.digit_value ?c] =>
      let v := eval vm_compute in (Py.digit_value c) in
      change (Py.digit_value c) with v
  end.

Lemma int_from_uint_acc d : forall acc,
  Py.int_from (Z.pos acc) (NilEmpty.string_of_uint d) = Z.pos (Pos.of_uint_acc d acc).
Proof.
  unfold Py.int_from.
  induction d; intros acc;
    cbn [NilEmpty.string_of_uint list_ascii_of_string fold_left Pos.of_uint_acc];
    [reflexivity|rewrite <- IHd; f_equal; eval_digit; lia ..].
Qed.

Lemma int_from_uint d :
  Py.int_from 0 (NilEmpty.string_of_uint d) = Z.of_N (Pos.of_uint d).
Proof.
  unfold Py.int_from.
  induction d;
    cbn [NilEmpty.string_of_uint list_ascii_of_string fold_left Pos.of_uint];
    [reflexivity|exact IHd|eval_digit; apply (int_from_uint_acc d) ..].
Qed.

Lemma uint_digits d : all_chars Py.isdigit (NilEmpty.string_of_uint d) = true.
Proof. induction d; simpl; auto. Qed.

Lemma str_of_int_uint n :
  0 <= n ->
  exists d, Py.str_of_int n = NilEmpty.string_of_uint d
            /\ d <> Decimal.Nil /\ Z.of_N (Pos.of_uint d) = n.
Proof.
  intros Hn. destruct n as [|p|p]; [| |lia].
  - exists (Decimal.D0 Decimal.Nil). repeat split. discriminate.
  - exists (Pos.to_uint p). unfold Py.str_of_int. simpl.
    assert (Hnn := DecimalPos.Unsigned.to_uint_nonnil p).
    split; [|split; [exact Hnn|now rewrite DecimalPos.Unsigned.of_to]].
    unfold NilZero.string_of_uint. now destruct (Pos.to_uint p).
Qed.

Lemma int_str_of_int n : 0 <= n -> Py.int (Py.str_of_int n) = n.
Proof.
  intros Hn. destruct (str_of_int_uint n Hn) as (d & -> & _ & <-).
  apply int_from_uint.
Qed.

Lemma str_of_int_digits n :
  0 <= n ->
  all_chars Py.isdigit (Py.str_of_int n) = true
  /\ Py.truthy (Py.str_of_int n) = true.
Proof.
  intros Hn. destruct (str_of_int_uint n Hn) as (d & -> & Hd & _).
  split; [apply uint_digits|]. destruct d; try reflexivity. now destruct Hd.
Qed.

Lemma match_range_text M L :
  0 <= M -> 0 <= L ->
  match_range (" [" +++ Py.str_of_int M +++ ":" +++ Py.str_of_int L +++ "]")
  = Some (Py.str_of_int M, Py.str_of_int L).
Proof.
  intros HM HL.
  destruct (str_of_int_digits M HM) as (HdM & HtM).
  destruct (str_of_int_digits L HL) as (HdL & HtL).
  unfold match_range.
  change (Py.span Py.isspace
            (" [" +++ Py.str_of_int M +++ ":" +++ Py.str_of_int L +++ "]"))
    with (" ", "[" +++ Py.str_of_int M +++ ":" +++ Py.str_of_int L +++ "]").
  cbn [String.append].
  rewrite (span_all Py.isdigit (Py.str_of_int M)); [|exact HdM|reflexivity].
  destruct (Py.str_of_int M) as [|c s] eqn:EM; [discriminate|].
  cbn [String.append].
  rewrite (span_all Py.isdigit (Py.str_of_int L)); [|exact HdL|reflexivity].
  destruct (Py.str_of_int L) as [|c' s'] eqn:EL; [discriminate|].
  reflexivity.
Qed.

Lemma re_match_identifier id rest :
  is_identifier id = true -> stops Py.ident_char rest ->
  re_match (id +++ rest)
  = match match_range rest with
    | Some (g2, g3) => Some (id, Some g2, Some g3)
    | None => Some (id, None, None)
    end.
Proof.
  unfold is_identifier. intros Hid Hrest.
  apply andb_true_iff in Hid as [Hb Hall].
  destruct id as [|c id]; [discriminate|]. simpl in Hb.
  unfold re_match. cbn [String.append]. rewrite Hb.
  change (String c (id +++ rest)) with (String c id +++ rest).
  now rewrite (span_all _ _ _ Hall Hrest).
Qed.

Lemma parse_field_range_text id M L :
  is_identifier id = true -> 0 <= M -> 0 <= L ->
  parse_field (range_text id M L)
  = (Some id,
     Some (if (negb (M =? 0) && negb (L =? 0))%bool then M - L + 1 else 1),
     Some L, Some M).
Proof.
  intros Hid HM HL.
  destruct (str_of_int_digits M HM) as (_ & HtM).
  destruct (str_of_int_digits L HL) as (_ & HtL).
  unfold parse_field, range_text.
  rewrite (re_match_identifier id _ Hid); [|reflexivity].
  rewrite (match_range_text M L HM HL).
  cbn [group_truthy group_int]. rewrite HtM, HtL, (strip_identifier _ Hid).
  now rewrite !int_str_of_int.
Qed.

(** On its own terms the parser gives [msb - lsb + 1] for a range whose
    bounds are both at least 1. *)
Lemma parse_field_range_nonzero id M L :
  is_identifier id = true -> 1 <= L -> L <= M ->
  parse_field (range_text id M L) = (Some id, Some (M - L + 1), Some L, Some M).
Proof.
  intros Hid HL HM.
  rewrite (parse_field_range_text id M L Hid) by lia.
  destruct (Z.eqb_spec M 0), (Z.eqb_spec L 0); simpl; try lia. reflexivity.
Qed.

(** A range that goes down to bit 0 gets the size 1, whatever its msb. *)
Lemma parse_field_range_zero_lsb id M :
  is_identifier id = true -> 0 <= M ->
  parse_field (range_text id M 0) = (Some id, Some 1, Some 0, Some M).
Proof.
  intros Hid HM.
  rewrite (parse_field_range_text id M 0 Hid) by lia.
  now rewrite andb_false_r.
Qed.

(** ** Which entries of a field list are emitted *)

Lemma flat_map_declare_lines fs :
  flat_map declare_lines fs = flat_map declaration (accepted_fields fs).
Proof.
  unfold accepted_fields. rewrite <- flat_map_filter_map.
  apply flat_map_ext. intros field. apply declare_lines_eq.
Qed.

Lemma flat_map_configure_lines rw dv fs :
  flat_map (configure_lines rw dv) fs
  = flat_map (fun p => configuration p rw dv) (accepted_fields fs).
Proof.
  unfold accepted_fields.
  rewrite <- (flat_map_filter_map _ accepted (fun p => configuration p rw dv)).
  apply flat_map_ext. intros field. apply configure_lines_eq.
Qed.

Lemma flat_map_last_lines rw dv fs :
  flat_map (last_lines rw dv) fs
  = flat_map (fun p => declaration p ++ configuration p rw dv)
      (accepted_fields fs).
Proof.
  unfold accepted_fields.
  rewrite <- (flat_map_filter_map _ accepted
                (fun p => declaration p ++ configuration p rw dv)).
  apply flat_map_ext. intros field. apply last_lines_eq.
Qed.

Lemma declaration_not_nil p : declaration p <> [].
Proof. destruct p as [[[n w] l] m]. discriminate. Qed.

Lemma configuration_not_nil p rw dv : configuration p rw dv <> [].
Proof. destruct p as [[[n w] l] m]. discriminate. Qed.

Lemma declare_lines_nonzero field :
  declare_lines field <> [] <-> nonzero_width field.
Proof.
  rewrite <- accepted_iff_nonzero, declare_lines_eq. cbv zeta.
  destruct (accepted _); split; try congruence.
  intros _. apply declaration_not_nil.
Qed.

Lemma configure_lines_nonzero rw dv field :
  configure_lines rw dv field <> [] <-> nonzero_width field.
Proof.
  rewrite <- accepted_iff_nonzero, configure_lines_eq. cbv zeta.
  destruct (accepted _); split; try congruence.
  intros _. apply configuration_not_nil.
Qed.

Lemma last_lines_nonzero rw dv field :
  last_lines rw dv field <> [] <-> nonzero_width field.
Proof.
  rewrite <- accepted_iff_nonzero, last_lines_eq. cbv zeta.
  destruct (accepted _); split; try congruence.
  intros _ H. apply app_eq_nil in H as [H _].
  now apply declaration_not_nil in H.
Qed.

(** C5, as the claim states it, fails: the entry [A [1:5]] parses to the
    size -3, which is not positive, and is declared all the same, since a
    negative [size] is true for [if ... and size and ...]. *)
Lemma negative_width_is_emitted :
  ~ (declare_lines "A [1:5]" <> [] <-> positive_width "A [1:5]").
Proof.
  intros [H _].
  destruct H as (n & w & l & m & Heq & Hw); [vm_compute; discriminate|].
  vm_compute in Heq. injection Heq as <- <- <- <-. lia.
Qed.

(** C5 (amended).  In a register closed when the next one starts, and in
    the register closed at the end of the table, the lines written for the
    fields are those of the entries of the field list, entry by entry; an
    entry gets a declaration, and a create/configure sequence, if and only
    if it parses and its computed size is not zero.  An entry of size zero
    is never emitted. *)
Theorem field_emitted_iff_nonzero_width (fs : list string) (rw dv : cell) :
  close_lines fs rw dv =
    [sep2] ++ flat_map declare_lines fs
    ++ [sep2; "  function void build;" +++ Py.nl]
    ++ flat_map (configure_lines rw dv) fs
    ++ ["  endfunction" +++ Py.nl; "endclass" +++ Py.nl +++ Py.nl]
  /\ close_last_lines fs rw dv =
    [sep2] ++ flat_map (last_lines rw dv) fs
    ++ ["  endfunction" +++ Py.nl; "endclass" +++ Py.nl +++ Py.nl]
  /\ forall field,
       (declare_lines field <> [] <-> nonzero_width field)
       /\ (configure_lines rw dv field <> [] <-> nonzero_width field)
       /\ (last_lines rw dv field <> [] <-> nonzero_width field).
Proof.
  split; [apply close_lines_eq|].
  split; [apply close_last_lines_eq|].
  intros field.
  split; [apply declare_lines_nonzero|].
  split; [apply configure_lines_nonzero|apply last_lines_nonzero].
Qed.


(** ** Missing columns *)

Lemma has_column_In df col :
  has_column df col = true <-> In (Some col) (columns df).
Proof.
  unfold has_column. rewrite existsb_exists. split.
  - intros (l & Hin & Hl). destruct l as [s|]; simpl in Hl; [|discriminate].
    apply String.eqb_eq in Hl. now subst.
  - intros Hin. exists (Some col). split; [exact Hin|]. apply String.eqb_refl.
Qed.

Lemma missing_columns_spec df c :
  In c (missing_columns df) <->
  In c required_columns /\ ~ In (Some c) (columns df).
Proof.
  unfold missing_columns. rewrite filter_In, <- has_column_In.
  rewrite negb_true_iff, not_true_iff_false. reflexivity.
Qed.



(** The run of a frame whose first row holds text and lacks a column. *)
Lemma run_missing_columns df output_file :
  has_text (first_row df) = true ->
  missing_columns df <> [] ->
  excel_to_uvm_ral df output_file
  = mkRun (line ("Error: Missing required columns: "
                 +++ Py.join ", " (missing_columns df) +++ Py.nl))
          None.
Proof.
  intros Ht Hm. unfold excel_to_uvm_ral.
  destruct (first_row df) as [|c cs] eqn:E; [discriminate Ht|].
  rewrite Ht. simpl negb. cbv iota.
  destruct (missing_columns df); [now destruct Hm|reflexivity].
Qed.

(** The run of a frame whose first row holds no text. *)
Lemma run_without_text df output_file :
  has_text (first_row df) = false ->
  exists e, excel_to_uvm_ral df output_file = mkRun (error e) None.
Proof.
  intros Ht. unfold excel_to_uvm_ral.
  destruct (first_row df) as [|c cs] eqn:E; [now eexists|].
  rewrite Ht. now eexists.
Qed.

(** C7, as the claim states it, fails: on an empty sheet every required
    column is absent, yet the line printed is not the one that names the
    missing columns.  [df.iloc[0]] raises on line 29, before the columns
    are looked at, and the handler of line 189 prints the text of that
    exception. *)
Lemma empty_sheet_names_no_column :
  In "Offset" required_columns
  /\ ~ In (Some "Offset") (columns (mkFrame [] []))
  /\ printed (excel_to_uvm_ral (mkFrame [] []) "uvm_ral_model.sv")
     <> line ("Error: Missing required columns: "
              +++ Py.join ", " (missing_columns (mkFrame [] [])) +++ Py.nl).
Proof.
  split; [simpl; tauto|]. split; [intros []|]. discriminate.
Qed.

(** C7 (amended).  When a required column is absent from the labels of the
    first row, the run never opens the output file and returns.  If the
    first row holds a text cell, the line it prints is the one that lists
    the missing columns, which are exactly the required columns that are
    absent.  If the first row holds no text (an empty sheet included), the
    line it prints is the one of a failure, and may name no column. *)
Theorem missing_column_no_output (df : frame) (output_file col : string) :
  In col required_columns ->
  ~ In (Some col) (columns df) ->
  written (excel_to_uvm_ral df output_file) = None
  /\ (has_text (first_row df) = true ->
      printed (excel_to_uvm_ral df output_file)
      = line ("Error: Missing required columns: "
              +++ Py.join ", " (missing_columns df) +++ Py.nl))
  /\ (has_text (first_row df) = false ->
      exists e, printed (excel_to_uvm_ral df output_file) = error e)
  /\ In col (missing_columns df)
  /\ forall c, In c (missing_columns df) <->
               In c required_columns /\ ~ In (Some c) (columns df).
Proof.
  intros Hreq Habs.
  assert (Hin : In col (missing_columns df))
    by (apply missing_columns_spec; now split).
  assert (Hm : missing_columns df <> [])
    by (intros E; rewrite E in Hin; destruct Hin).
  split; [|split; [|split; [|split]]].
  - destruct (has_text (first_row df)) eqn:Ht.
    + now rewrite (run_missing_columns df output_file Ht Hm).
    + now destruct (run_without_text df output_file Ht) as (e & ->).
  - intros Ht. now rewrite (run_missing_columns df output_file Ht Hm).
  - intros Ht. destruct (run_without_text df output_file Ht) as (e & ->).
    now exists e.
  - exact Hin.
  - intros c. apply missing_columns_spec.
Qed.

Lemma missing_column_no_output_witness :
  written (excel_to_uvm_ral (mkFrame header_without_offset []) "uvm_ral_model.sv")
    = None
  /\ printed (excel_to_uvm_ral (mkFrame header_without_offset []) "uvm_ral_model.sv")
     = line ("Error: Missing required columns: Offset" +++ Py.nl).
Proof.
  destruct (missing_column_no_output (mkFrame header_without_offset [])
              "uvm_ral_model.sv" "Offset") as (Hw & Hp & _).
  - simpl. auto.
  - simpl. intuition discriminate.
  - split; [exact Hw|exact (Hp eq_refl)].
Defined.

(** ** Field cells above the first register *)

Lemma prepare_name_of_differ r r' :
  differ_only_in_fields r r' ->
  s_register_name (prepare r) = s_register_name (prepare r')
  /\ s_read_write (prepare r) = s_read_write (prepare r')
  /\ s_default_value (prepare r) = s_default_value (prepare r').
Proof.
  intros (Hn & _ & Hrw & Hdv & _). simpl. now rewrite Hn, Hrw, Hdv.
Qed.

Lemma clear_fields_differ r : differ_only_in_fields r (clear_fields r).
Proof. repeat split. Qed.

Lemma scan_row_unopened st st' r :
  st = st' \/ both_unopened st st' ->
  scan_row st r = scan_row st' r
  \/ both_unopened (scan_row st r) (scan_row st' r).
Proof.
  intros [->|(Hc & Hc' & Hrw & Hdv & Ho)]; [now left|].
  destruct (starts_register r) eqn:E.
  - left. rewrite !(scan_row_start _ _ E), Hc, Hc', Ho. reflexivity.
  - right. rewrite !(scan_row_continue _ _ E). now repeat split.
Qed.

Lemma scan_rows_unopened rows :
  forall st st',
  st = st' \/ both_unopened st st' ->
  fold_left scan_row rows st = fold_left scan_row rows st'
  \/ both_unopened (fold_left scan_row rows st) (fold_left scan_row rows st').
Proof.
  induction rows as [|r rows IH]; simpl; intros st st' H; [exact H|].
  apply IH, scan_row_unopened, H.
Qed.

Lemma scan_prefix_unopened pre pre' :
  Forall2 differ_only_in_fields pre pre' ->
  forallb (fun r => negb (starts_register (prepare r))) pre = true ->
  forall st st',
  both_unopened st st' ->
  both_unopened (fold_left scan_row (map prepare pre) st)
                (fold_left scan_row (map prepare pre') st').
Proof.
  induction 1 as [|r r' pre pre' Hr _ IH]; simpl; intros Hpre st st' Hst;
    [exact Hst|].
  apply andb_true_iff in Hpre as [Hn Hpre]. apply negb_true_iff in Hn.
  destruct (prepare_name_of_differ _ _ Hr) as (Hname & Hrw & Hdv).
  assert (Hn' : starts_register (prepare r') = false).
  { unfold starts_register in *. now rewrite <- Hname. }
  apply (IH Hpre).
  destruct Hst as (Hc & Hc' & _ & _ & Ho).
  rewrite (scan_row_continue _ _ Hn), (scan_row_continue _ _ Hn').
  now repeat split.
Qed.

Lemma finish_unopened st st' :
  st = st' \/ both_unopened st st' -> finish st = finish st'.
Proof.
  intros [->|(Hc & Hc' & _ & _ & Ho)]; [reflexivity|].
  unfold finish. now rewrite Hc, Hc'.
Qed.

Lemma names_of_differ pre pre' :
  Forall2 differ_only_in_fields pre pre' ->
  map s_register_name (map prepare pre)
  = map s_register_name (map prepare pre').
Proof.
  induction 1 as [|r r' pre pre' Hr _ IH]; simpl; [reflexivity|].
  destruct (prepare_name_of_differ _ _ Hr) as (Hname & _).
  simpl in Hname. now rewrite Hname, IH.
Qed.

Lemma generate_prefix_fields pre pre' rest :
  Forall2 differ_only_in_fields pre pre' ->
  forallb (fun r => negb (starts_register (prepare r))) pre = true ->
  generate (map prepare (pre ++ rest)) = generate (map prepare (pre' ++ rest)).
Proof.
  intros Hd Hpre. unfold generate, register_names.
  rewrite !map_app, !fold_left_app, (names_of_differ _ _ Hd).
  f_equal. apply finish_unopened, scan_rows_unopened. right.
  apply (scan_prefix_unopened _ _ Hd Hpre). now repeat split.
Qed.

Lemma excel_to_uvm_ral_body cols rows rows' output_file :
  generate (map prepare rows) = generate (map prepare rows') ->
  excel_to_uvm_ral (mkFrame cols rows) output_file
  = excel_to_uvm_ral (mkFrame cols rows') output_file.
Proof.
  intros H.
  unfold excel_to_uvm_ral, columns_distinct, one_column, occurrences,
    missing_columns, has_column, columns.
  simpl. now rewrite H.
Qed.

Lemma Forall2_clear_fields pre :
  Forall2 differ_only_in_fields pre (map clear_fields pre).
Proof.
  induction pre as [|r pre IH]; simpl; constructor;
    [apply clear_fields_differ|exact IH].
Qed.

(** C8.  Two tables with the same first row, whose rows above some point
    start no register and differ at most in their field cells, and whose
    rows from that point on are the same, give the same run: the same
    output file and the same printed text.  In particular the run is the
    one of the table in which those field cells are empty, so none of them
    adds a line to the output. *)
Theorem fields_before_first_register_dropped
  (cols : list (option string)) (pre pre' rest : list row)
  (output_file : string) :
  Forall2 differ_only_in_fields pre pre' ->
  forallb (fun r => negb (starts_register (prepare r))) pre = true ->
  excel_to_uvm_ral (mkFrame cols (pre ++ rest)) output_file
  = excel_to_uvm_ral (mkFrame cols (pre' ++ rest)) output_file
  /\ excel_to_uvm_ral (mkFrame cols (pre ++ rest)) output_file
     = excel_to_uvm_ral (mkFrame cols (map clear_fields pre ++ rest))
         output_file.
Proof.
  intros Hd Hpre. split; apply excel_to_uvm_ral_body.
  - now apply generate_prefix_fields.
  - apply generate_prefix_fields; [apply Forall2_clear_fields|exact Hpre].
Qed.

Lemma fields_before_first_register_dropped_witness :
  excel_to_uvm_ral
    (mkFrame full_header
       ([mk_row NaN (Val "RW") (Val "EARLY [3:1]") NaN]
        ++ [mk_row (Val "CTRL") (Val "RW") (Val "EN") (Val "1")]))
    "uvm_ral_model.sv"
  = excel_to_uvm_ral
      (mkFrame full_header
         ([mk_row NaN (Val "RW") (Val "OTHER [7:4]") NaN]
          ++ [mk_row (Val "CTRL") (Val "RW") (Val "EN") (Val "1")]))
      "uvm_ral_model.sv".
Proof.
  apply (proj1 (fields_before_first_register_dropped full_header
                  [mk_row NaN (Val "RW") (Val "EARLY [3:1]") NaN]
                  [mk_row NaN (Val "RW") (Val "OTHER [7:4]") NaN]
                  [mk_row (Val "CTRL") (Val "RW") (Val "EN") (Val "1")]
                  "uvm_ral_model.sv"
                  ltac:(repeat constructor) eq_refl)).
Defined.

(** ** Field cells that do not parse *)

Lemma accepted_fields_app fs fs' :
  accepted_fields (fs ++ fs') = accepted_fields fs ++ accepted_fields fs'.
Proof. unfold accepted_fields. now rewrite map_app, filter_app. Qed.

Lemma close_lines_accepted fs fs' rw dv :
  accepted_fields fs = accepted_fields fs' ->
  close_lines fs rw dv = close_lines fs' rw dv.
Proof.
  intros H.
  now rewrite !close_lines_eq, !flat_map_declare_lines,
    !flat_map_configure_lines, H.
Qed.

Lemma close_last_lines_accepted fs fs' rw dv :
  accepted_fields fs = accepted_fields fs' ->
  close_last_lines fs rw dv = close_last_lines fs' rw dv.
Proof.
  intros H. now rewrite !close_last_lines_eq, !flat_map_last_lines, H.
Qed.

Lemma accepted_fields_unparsed field :
  begins_identifier (Py.strip field) = false -> accepted_fields [field] = [].
Proof.
  intros H. unfold accepted_fields. simpl.
  now rewrite (parse_field_no_identifier _ H).
Qed.

Lemma accepted_fields_skip fs1 field fs2 :
  begins_identifier (Py.strip field) = false ->
  accepted_fields (fs1 ++ field :: fs2) = accepted_fields (fs1 ++ fs2).
Proof.
  intros H. change (field :: fs2) with ([field] ++ fs2).
  now rewrite !accepted_fields_app, (accepted_fields_unparsed _ H).
Qed.

Lemma scan_row_same_accepted st st' r :
  same_accepted st st' -> same_accepted (scan_row st r) (scan_row st' r).
Proof.
  intros (Hc & Hrw & Hdv & Ho & Hf).
  destruct (starts_register r) eqn:E.
  - rewrite !(scan_row_start _ _ E), Hc, Ho,
      (close_lines_accepted _ _ _ _ Hf).
    now repeat split.
  - rewrite !(scan_row_continue _ _ E). repeat split; simpl; try assumption.
    now rewrite !accepted_fields_app, Hf.
Qed.

Lemma scan_rows_same_accepted rows :
  forall st st',
  same_accepted st st' ->
  same_accepted (fold_left scan_row rows st) (fold_left scan_row rows st').
Proof.
  induction rows as [|r rows IH]; simpl; intros st st' H; [exact H|].
  apply IH, scan_row_same_accepted, H.
Qed.

Lemma same_accepted_refl st : same_accepted st st.
Proof. now repeat split. Qed.

Lemma field_entry_clear r : field_entry (prepare (clear_fields r)) = [].
Proof. reflexivity. Qed.

Lemma field_entry_unparsed r :
  begins_identifier (Py.strip (fillna_astype_str (fields r))) = false ->
  accepted_fields (field_entry (prepare r)) = [].
Proof.
  intros H. unfold field_entry. simpl.
  destruct (Py.truthy _); [|reflexivity].
  apply accepted_fields_unparsed. now rewrite strip_idempotent.
Qed.

Lemma scan_row_clear_unparsed st r :
  begins_identifier (Py.strip (fillna_astype_str (fields r))) = false ->
  same_accepted (scan_row st (prepare r)) (scan_row st (prepare (clear_fields r))).
Proof.
  intros H.
  assert (Hs : starts_register (prepare (clear_fields r))
               = starts_register (prepare r)) by reflexivity.
  destruct (starts_register (prepare r)) eqn:E.
  - rewrite (scan_row_start _ _ E), (scan_row_start _ _ Hs).
    repeat split. simpl field_list.
    now rewrite field_entry_clear, (field_entry_unparsed _ H).
  - rewrite (scan_row_continue _ _ E), (scan_row_continue _ _ Hs).
    repeat split. simpl field_list.
    now rewrite !accepted_fields_app, field_entry_clear,
      (field_entry_unparsed _ H).
Qed.

Lemma finish_same_accepted st st' :
  same_accepted st st' -> finish st = finish st'.
Proof.
  intros (Hc & Hrw & Hdv & Ho & Hf).
  now rewrite !finish_app, Hc, Hrw, Hdv, Ho,
    (close_last_lines_accepted _ _ _ _ Hf).
Qed.

Lemma generate_clear_unparsed rows1 r rows2 :
  begins_identifier (Py.strip (fillna_astype_str (fields r))) = false ->
  generate (map prepare (rows1 ++ r :: rows2))
  = generate (map prepare (rows1 ++ clear_fields r :: rows2)).
Proof.
  intros H. unfold generate, register_names.
  rewrite !map_app, !fold_left_app. simpl.
  f_equal. apply finish_same_accepted, scan_rows_same_accepted.
  now apply scan_row_clear_unparsed.
Qed.

(** C9.  For a text [s] that does not begin with an identifier (empty, or
    a first character outside [A-Za-z_]), [parse_field] returns [None]
    four times; a field list entry that the emitters hand to the parser as
    [s] adds no line to either pass, and the register is closed as if the
    entry were not in the list; and a table with a row whose field cell
    reaches the parser as [s] gives the run of the table with that cell
    empty.  [parse_field] and the run are total functions: nothing is
    raised. *)
Theorem unparsed_field_ignored (s : string) :
  begins_identifier s = false ->
  parse_field s = (None, None, None, None)
  /\ (forall field fs1 fs2 rw dv,
        Py.strip field = s ->
        declare_lines field = []
        /\ configure_lines rw dv field = []
        /\ last_lines rw dv field = []
        /\ close_lines (fs1 ++ field :: fs2) rw dv
           = close_lines (fs1 ++ fs2) rw dv
        /\ close_last_lines (fs1 ++ field :: fs2) rw dv
           = close_last_lines (fs1 ++ fs2) rw dv)
  /\ (forall cols rows1 r rows2 output_file,
        Py.strip (fillna_astype_str (fields r)) = s ->
        excel_to_uvm_ral (mkFrame cols (rows1 ++ r :: rows2)) output_file
        = excel_to_uvm_ral (mkFrame cols (rows1 ++ clear_fields r :: rows2))
            output_file).
Proof.
  intros Hs. split; [now apply parse_field_no_identifier|]. split.
  - intros field fs1 fs2 rw dv Hf. rewrite <- Hf in Hs.
    rewrite declare_lines_eq, configure_lines_eq, last_lines_eq.
    rewrite (parse_field_no_identifier _ Hs). simpl.
    repeat split.
    + apply close_lines_accepted. now apply accepted_fields_skip.
    + apply close_last_lines_accepted. now apply accepted_fields_skip.
  - intros cols rows1 r rows2 output_file Hf. rewrite <- Hf in Hs.
    apply excel_to_uvm_ral_body. now apply generate_clear_unparsed.
Qed.

Lemma unparsed_field_ignored_witness :
  parse_field "9A" = (None, None, None, None)
  /\ close_lines ["EN"; "9A"; "MODE [3:1]"] (Val "RW") NaN
     = close_lines ["EN"; "MODE [3:1]"] (Val "RW") NaN.
Proof.
  destruct (unparsed_field_ignored "9A" eq_refl) as (Hp & Hl & _).
  split; [exact Hp|].
  exact (proj1 (proj2 (proj2 (proj2
           (Hl "9A" ["EN"] ["MODE [3:1]"] (Val "RW") NaN eq_refl))))).
Defined.

(** ** Registers that share a name *)

(** A row that starts a register, then rows that start none. *)
Lemma scan_group r cs st :
  starts_register r = true ->
  forallb (fun r => negb (starts_register r)) cs = true ->
  let st' := fold_left scan_row (r :: cs) st in
  current_reg st' = Some (Py.strip (s_register_name r))
  /\ field_list st' = field_entry r ++ flat_map field_entry cs
  /\ out st' =
       (if truthy_name (current_reg st)
        then out st ++ close_lines (field_list st) (s_read_write r)
                         (s_default_value r)
        else out st) ++ open_lines (Py.strip (s_register_name r)).
Proof.
  intros Hr Hcs. simpl.
  destruct (scan_continuation cs Hcs (scan_row st r)) as (Hc & Hf & Ho).
  rewrite Hc, Hf, Ho, (scan_row_start _ _ Hr). now repeat split.
Qed.

Lemma existsb_filter (q : string -> bool) x seen :
  q x = true ->
  existsb (String.eqb x) (filter q seen) = existsb (String.eqb x) seen.
Proof.
  intros Hx. induction seen as [|y seen IH]; simpl; [reflexivity|].
  destruct (q y) eqn:Ey; simpl; rewrite IH; [reflexivity|].
  destruct (String.eqb_spec x y) as [->|_]; [congruence|reflexivity].
Qed.

Lemma filter_unique_from (q : string -> bool) xs :
  forall seen,
  filter q (unique_from seen xs) = unique_from (filter q seen) (filter q xs).
Proof.
  induction xs as [|x xs IH]; intros seen; simpl; [reflexivity|].
  destruct (q x) eqn:Ex; simpl.
  - rewrite (existsb_filter _ _ _ Ex).
    destruct (existsb _ seen); simpl; rewrite ?Ex, IH; simpl;
      now rewrite ?Ex.
  - destruct (existsb _ seen); simpl; rewrite ?Ex, IH; simpl;
      now rewrite ?Ex.
Qed.

Lemma filter_unique (q : string -> bool) xs :
  filter q (unique xs) = unique (filter q xs).
Proof. apply (filter_unique_from q xs []). Qed.

Lemma one_of_continuation a b cs :
  Py.truthy (Py.strip a) = true ->
  Py.truthy (Py.strip b) = true ->
  forallb (fun r => negb (starts_register r)) cs = true ->
  filter (one_of a b) (map s_register_name cs) = [].
Proof.
  intros Ha Hb. induction cs as [|r cs IH]; simpl; [reflexivity|].
  intros H. apply andb_true_iff in H as [Hr Hcs].
  apply negb_true_iff in Hr. unfold starts_register in Hr.
  rewrite (IH Hcs). unfold one_of.
  destruct (String.eqb_spec (s_register_name r) a) as [E|_];
    [rewrite E in Hr; congruence|].
  destruct (String.eqb_spec (s_register_name r) b) as [E|_];
    [rewrite E in Hr; congruence|reflexivity].
Qed.

Lemma opens_class_declaration p : filter opens_class (declaration p) = [].
Proof. destruct p as [[[n w] l] m]. reflexivity. Qed.

Lemma opens_class_configuration p rw dv :
  filter opens_class (configuration p rw dv) = [].
Proof. destruct p as [[[n w] l] m]. reflexivity. Qed.

Lemma opens_class_close_lines fs rw dv :
  filter opens_class (close_lines fs rw dv) = [].
Proof.
  rewrite close_lines_eq, flat_map_declare_lines, flat_map_configure_lines.
  rewrite !filter_app.
  rewrite (filter_flat_map_nil _ _ _ opens_class_declaration).
  rewrite (filter_flat_map_nil _ _ _
             (fun p => opens_class_configuration p rw dv)).
  reflexivity.
Qed.

Lemma opens_class_close_last_lines fs rw dv :
  filter opens_class (close_last_lines fs rw dv) = [].
Proof.
  rewrite close_last_lines_eq, flat_map_last_lines, !filter_app.
  rewrite filter_flat_map_nil; [reflexivity|].
  intros p.
  now rewrite filter_app, opens_class_declaration, opens_class_configuration.
Qed.

Lemma opens_class_open_lines n :
  filter opens_class (open_lines n) = [class_line n].
Proof. reflexivity. Qed.

Lemma opens_class_block_lines names :
  filter opens_class (block_lines names) = [block_class_line].
Proof.
  unfold block_lines, register_block.
  rewrite !write_all_app.
  rewrite !(fold_left_append _ _ instance_step_app).
  rewrite !(fold_left_append _ _ build_step_app).
  rewrite !(fold_left_append _ _ map_step_app).
  rewrite !filter_app.
  rewrite !filter_flat_map_nil; try reflexivity.
Qed.

Lemma truthy_name_started r :
  starts_register r = true ->
  truthy_name (Some (Py.strip (s_register_name r))) = true.
Proof. intros H. exact H. Qed.

(** The file after three register groups, each a row that starts a
    register followed by rows that start none. *)
Lemma finish_three_groups c0 r1 c1 r2 c2 r3 c3 :
  forallb (fun r => negb (starts_register r)) c0 = true ->
  starts_register r1 = true ->
  forallb (fun r => negb (starts_register r)) c1 = true ->
  starts_register r2 = true ->
  forallb (fun r => negb (starts_register r)) c2 = true ->
  starts_register r3 = true ->
  forallb (fun r => negb (starts_register r)) c3 = true ->
  exists rw dv,
    finish (fold_left scan_row
              (c0 ++ (r1 :: c1) ++ (r2 :: c2) ++ (r3 :: c3)) initial_scan)
    = guard
      ++ open_lines (Py.strip (s_register_name r1))
      ++ close_lines (field_entry r1 ++ flat_map field_entry c1)
           (s_read_write r2) (s_default_value r2)
      ++ open_lines (Py.strip (s_register_name r2))
      ++ close_lines (field_entry r2 ++ flat_map field_entry c2)
           (s_read_write r3) (s_default_value r3)
      ++ open_lines (Py.strip (s_register_name r3))
      ++ close_last_lines (field_entry r3 ++ flat_map field_entry c3) rw dv.
Proof.
  intros H0 Hr1 H1 Hr2 H2 Hr3 H3.
  rewrite !fold_left_app.
  destruct (scan_continuation c0 H0 initial_scan) as (Hc0 & _ & Ho0).
  set (st0 := fold_left scan_row c0 initial_scan) in *.
  destruct (scan_group r1 c1 st0 Hr1 H1) as (Hc1 & Hf1 & Ho1).
  set (st1 := fold_left scan_row (r1 :: c1) st0) in *.
  destruct (scan_group r2 c2 st1 Hr2 H2) as (Hc2 & Hf2 & Ho2).
  set (st2 := fold_left scan_row (r2 :: c2) st1) in *.
  destruct (scan_group r3 c3 st2 Hr3 H3) as (Hc3 & Hf3 & Ho3).
  set (st3 := fold_left scan_row (r3 :: c3) st2) in *.
  exists (st_read_write st3), (st_default_value st3).
  rewrite finish_app, Hc3, (truthy_name_started _ Hr3), Hf3, Ho3.
  rewrite Hc2, (truthy_name_started _ Hr2), Hf2, Ho2.
  rewrite Hc1, (truthy_name_started _ Hr1), Hf1, Ho1.
  rewrite Hc0, Ho0. simpl truthy_name. cbv iota.
  change (out initial_scan) with guard.
  now rewrite <- !app_assoc.
Qed.

Lemma unique_A_B_A a b : a <> b -> unique [a; b; a] = [a; b].
Proof.
  intros H. unfold unique. simpl.
  rewrite String.eqb_refl.
  destruct (String.eqb_spec b a) as [E|_]; [now subst|].
  destruct (String.eqb_spec a b) as [E|_]; [now subst|]. reflexivity.
Qed.

(** When the rows that start a register carry the very same cells A, B
    and A in this order, with A and B different: the output holds, in
    order, a class block for A (closed when B starts), one for B (closed
    when A starts again) and a second one for A (closed at the end of the
    table), then the register block; the lines of the output that open a
    class are those of A, B, A and of the register block; and the names
    over which the register block runs its three loops hold A and B once
    each, A before B.  A class is named by the trimmed cell. *)
Lemma register_blocks_A_B_A (rows : list row) (A B : string) :
  A <> B ->
  map s_register_name (filter starts_register (map prepare rows))
    = [A; B; A] ->
  let names := register_names (map prepare rows) in
  (exists fsA rwA dvA fsB rwB dvB fsA' rwA' dvA',
     generate (map prepare rows) =
       guard
       ++ open_lines (Py.strip A) ++ close_lines fsA rwA dvA
       ++ open_lines (Py.strip B) ++ close_lines fsB rwB dvB
       ++ open_lines (Py.strip A) ++ close_last_lines fsA' rwA' dvA'
       ++ block_lines names)
  /\ filter opens_class (generate (map prepare rows))
     = [class_line (Py.strip A); class_line (Py.strip B);
        class_line (Py.strip A); block_class_line]
  /\ filter (one_of A B) names = [A; B].
Proof.
  intros Hab Hstarts names. subst names.
  set (rows' := map prepare rows) in *.
  destruct (filter starts_register rows') as [|r1 [|r2 [|r3 [|r4 l]]]] eqn:E;
    try discriminate.
  simpl in Hstarts. injection Hstarts as HA HB HA'.
  destruct (filter_cons_inv _ _ _ _ E) as (c0 & l1 & Hrows & H0 & Hr1 & E1).
  destruct (filter_cons_inv _ _ _ _ E1) as (c1 & l2 & Hl1 & H1 & Hr2 & E2).
  destruct (filter_cons_inv _ _ _ _ E2) as (c2 & c3 & Hl2 & H2 & Hr3 & E3).
  apply filter_nil_forallb in E3.
  assert (Hshape : rows' = c0 ++ (r1 :: c1) ++ (r2 :: c2) ++ (r3 :: c3)).
  { rewrite Hrows, Hl1, Hl2. reflexivity. }
  destruct (finish_three_groups c0 r1 c1 r2 c2 r3 c3 H0 Hr1 H1 Hr2 H2 Hr3 E3)
    as (rw & dv & Hfin).
  assert (Hfile : generate rows' =
            guard
            ++ open_lines (Py.strip A)
            ++ close_lines (field_entry r1 ++ flat_map field_entry c1)
                 (s_read_write r2) (s_default_value r2)
            ++ open_lines (Py.strip B)
            ++ close_lines (field_entry r2 ++ flat_map field_entry c2)
                 (s_read_write r3) (s_default_value r3)
            ++ open_lines (Py.strip A)
            ++ close_last_lines (field_entry r3 ++ flat_map field_entry c3)
                 rw dv
            ++ block_lines (register_names rows')).
  { unfold generate. rewrite register_block_app.
    rewrite Hshape at 1. rewrite Hfin, HA, HB, HA'.
    now rewrite <- !app_assoc. }
  split; [|split].
  - rewrite Hfile. now eexists _, _, _, _, _, _, _, _, _.
  - rewrite Hfile, !filter_app.
    rewrite !opens_class_open_lines, !opens_class_close_lines,
      opens_class_close_last_lines, opens_class_block_lines.
    reflexivity.
  - unfold register_names. rewrite filter_unique, Hshape.
    assert (HtA : Py.truthy (Py.strip A) = true)
      by (rewrite <- HA; exact Hr1).
    assert (HtB : Py.truthy (Py.strip B) = true)
      by (rewrite <- HB; exact Hr2).
    rewrite !map_app, !filter_app. simpl map. simpl filter.
    rewrite !(one_of_continuation A B _ HtA HtB) by assumption.
    rewrite HA, HB, HA'. unfold one_of.
    rewrite !String.eqb_refl, orb_true_r. simpl.
    now apply unique_A_B_A.
Qed.

(** ** Where the code departs from the specification *)

(** C2 (defect of the code).  The close of a register in the middle of the
    table runs in the iteration of the row that starts the next register,
    and reads the loop variables [read_write] and [default_value] of that
    row.  In the table of CTRL (RW, default 5) followed by STATUS (RO, no
    default), the field of CTRL is configured with the access RO and the
    reset 0; the access RW and the reset 5 of the row of CTRL are written
    nowhere. *)
Theorem close_reads_next_header_row :
  exists f,
    written (excel_to_uvm_ral table_ctrl_status "uvm_ral_model.sv") = Some f
    /\ f = guard
           ++ open_lines "CTRL"
           ++ close_lines ["EN [3:1]"] (Val "RO") NaN
           ++ open_lines "STATUS"
           ++ close_last_lines ["BUSY"] (Val "RO") NaN
           ++ block_lines ["CTRL"; "STATUS"]
    /\ configure_lines (Val "RO") NaN "EN [3:1]" =
         [ "    EN = uvm_reg_field::type_id::create(" +++ Py.dq +++ "EN"
             +++ Py.dq +++ ");" +++ Py.nl;
           "    EN.configure(.parent(this)," +++ Py.nl;
           "                           .size(3)," +++ Py.nl;
           "                           .lsb_pos(1)," +++ Py.nl;
           "                           .msb_pos(3)," +++ Py.nl;
           access_line "RO";
           "                           .volatile(0)," +++ Py.nl;
           reset_line "0";
           "                           .has_reset(1)," +++ Py.nl;
           "                           .is_rand(1)," +++ Py.nl;
           "                           .individually_accessible(0));" +++ Py.nl ]
    /\ has_line (access_line "RW") f = false
    /\ has_line (reset_line "5") f = false.
Proof.
  eexists. split; [reflexivity|]. repeat split; vm_compute; reflexivity.
Qed.

(** In general: when a register is open and a row starts the next one, the
    open register is closed with the access and default cells of that
    row. *)
Lemma scan_row_closes_with_current_row st r name :
  current_reg st = Some name ->
  Py.truthy name = true ->
  starts_register r = true ->
  out (scan_row st r)
  = out st
    ++ close_lines (field_list st) (s_read_write r) (s_default_value r)
    ++ open_lines (Py.strip (s_register_name r)).
Proof.
  intros Hc Hn Hr. rewrite (scan_row_start _ _ Hr), Hc. simpl.
  rewrite Hn. now rewrite <- app_assoc.
Qed.

(** C3 (defect of the code).  The close at the end of the table is a
    second copy of the emission code, and not the same text: it writes no
    second separator and no line [function void build;], and it puts each
    declaration next to its create/configure sequence, before an
    [endfunction] that closes nothing.  For the table of the single
    register CTRL: *)
Theorem last_register_block_shape :
  exists f,
    written (excel_to_uvm_ral table_ctrl "uvm_ral_model.sv") = Some f
    /\ f = guard
           ++ open_lines "CTRL"
           ++ close_last_lines ["EN [3:1]"] (Val "RW") (Val "5")
           ++ block_lines ["CTRL"]
    /\ close_last_lines ["EN [3:1]"] (Val "RW") (Val "5") =
         [ sep2;
           "    rand uvm_reg_field EN;" +++ Py.nl ]
         ++ configure_lines (Val "RW") (Val "5") "EN [3:1]"
         ++ [ "  endfunction" +++ Py.nl; "endclass" +++ Py.nl +++ Py.nl ]
    /\ close_lines ["EN [3:1]"] (Val "RW") (Val "5") =
         [ sep2;
           "    rand uvm_reg_field EN;" +++ Py.nl;
           sep2;
           build_line ]
         ++ configure_lines (Val "RW") (Val "5") "EN [3:1]"
         ++ [ "  endfunction" +++ Py.nl; "endclass" +++ Py.nl +++ Py.nl ]
    /\ has_line build_line f = false.
Proof.
  eexists. split; [reflexivity|]. repeat split; vm_compute; reflexivity.
Qed.

Lemma length_flat_map_declaration ps :
  List.length (flat_map declaration ps) = List.length ps.
Proof.
  induction ps as [|[[[n w] l] m] ps IH]; simpl; [reflexivity|now rewrite IH].
Qed.

Lemma length_flat_map_configuration rw dv ps :
  List.length (flat_map (fun p => configuration p rw dv) ps) = (11 * List.length ps)%nat.
Proof.
  induction ps as [|[[[n w] l] m] ps IH]; [reflexivity|].
  change (flat_map (fun p => configuration p rw dv) ((n, w, l, m) :: ps))
    with (configuration (n, w, l, m) rw dv
          ++ flat_map (fun p => configuration p rw dv) ps).
  rewrite length_app, IH. simpl. lia.
Qed.

Lemma length_flat_map_both rw dv ps :
  List.length (flat_map (fun p => declaration p ++ configuration p rw dv) ps)
  = (12 * List.length ps)%nat.
Proof.
  induction ps as [|[[[n w] l] m] ps IH]; [reflexivity|].
  change (flat_map (fun p => declaration p ++ configuration p rw dv)
            ((n, w, l, m) :: ps))
    with ((declaration (n, w, l, m) ++ configuration (n, w, l, m) rw dv)
          ++ flat_map (fun p => declaration p ++ configuration p rw dv) ps).
  rewrite length_app, IH. simpl. lia.
Qed.

(** For every field list the close at the end of the table writes two
    lines fewer than the close in the middle of the table, so the two never
    write the same text for the same group. *)
Lemma close_last_lines_two_fewer fs rw dv :
  List.length (close_lines fs rw dv) = (List.length (close_last_lines fs rw dv) + 2)%nat.
Proof.
  rewrite close_lines_eq, close_last_lines_eq.
  rewrite flat_map_declare_lines, flat_map_configure_lines, flat_map_last_lines.
  rewrite !length_app, length_flat_map_declaration,
    length_flat_map_configuration, length_flat_map_both.
  simpl. lia.
Qed.

Lemma In_unique_from x xs :
  forall seen, In x xs -> In x seen \/ In x (unique_from seen xs).
Proof.
  induction xs as [|y xs IH]; simpl; intros seen H; [destruct H|].
  destruct (existsb (String.eqb y) seen) eqn:E.
  - destruct H as [->|H]; [|now apply IH].
    left. apply existsb_exists in E as (z & Hz & Hyz).
    apply String.eqb_eq in Hyz. now subst.
  - destruct H as [->|H]; [right; now left|].
    destruct (IH (y :: seen) H) as [[->|Hs]|Hu]; auto.
    + right. now left.
    + right. now right.
Qed.

(** C4 (defect of the code).  The names of the register block are the
    distinct cells of the register-name column as they are after
    [fillna]: not trimmed, and with the empty text that [fillna] puts in an
    empty cell, which [dropna] then no longer removes.  In the table of the
    register CTRL with a second row for its second field, the register
    block runs over CTRL and the empty name, and declares an instance
    without a type. *)
Theorem block_instantiates_empty_name :
  exists f,
    written (excel_to_uvm_ral table_ctrl_two_rows "uvm_ral_model.sv") = Some f
    /\ register_names (map prepare (body table_ctrl_two_rows))
       = ["CTRL"; EmptyString]
    /\ has_line ("  rand  reg_;" +++ Py.nl) f = true
    /\ has_line ("    reg_ = ::type_id::create(" +++ Py.dq +++ "reg_" +++ Py.dq
                 +++ ");" +++ Py.nl) f = true
    /\ has_line ("    default_map.add_reg(reg_, 'h0, " +++ Py.dq +++ "RW"
                 +++ Py.dq +++ ");" +++ Py.nl) f = true.
Proof.
  eexists. split; [reflexivity|]. repeat split; vm_compute; reflexivity.
Qed.

(** In general: a row with an empty register-name cell puts the empty name
    among the names of the register block. *)
Lemma empty_cell_is_a_register_name rows r :
  In r rows -> register_name r = NaN ->
  In EmptyString (register_names (map prepare rows)).
Proof.
  intros Hin Hr. unfold register_names, unique.
  destruct (In_unique_from EmptyString (map s_register_name (map prepare rows)) [])
    as [[]|H]; [|exact H].
  rewrite map_map. apply in_map_iff. exists r. split; [|exact Hin].
  simpl. now rewrite Hr.
Qed.

(** C6 (defect of the code).  The classes are named by the trimmed cell
    (line 65), the register block by the raw cell (line 155): the same
    defect as for C4.  In the table whose rows start the registers A, B
    and A again, the first of them written with a blank after the name,
    the classes are A, B and A, but the names of the register block are
    the three cells, and the block declares, creates and maps an instance
    of A twice: once for the cell with the blank and once for the cell
    without it. *)
Theorem padded_name_instantiated_twice :
  exists f,
    written (excel_to_uvm_ral table_padded_A_B_A "uvm_ral_model.sv") = Some f
    /\ filter opens_class f
       = [class_line "A"; class_line "B"; class_line "A"; block_class_line]
    /\ register_names (map prepare (body table_padded_A_B_A))
       = ["A "; "B"; "A"]
    /\ block_lines ["A "; "B"; "A"] =
         [ rule;
           "//" +++ Py.tab +++ "Register Block Definition" +++ Py.nl;
           rule;
           block_class_line;
           "  `uvm_object_utils(dma_reg_model)" +++ Py.nl +++ Py.nl;
           sep2;
           "  // Register Instances" +++ Py.nl;
           sep2;
           "  rand A  reg_a ;" +++ Py.nl;
           "  rand B reg_b;" +++ Py.nl;
           "  rand A reg_a;" +++ Py.nl;
           Py.nl +++ sep2;
           "  // Constructor" +++ Py.nl;
           sep2;
           "  function new (string name = " +++ Py.dq +++ Py.dq +++ ");"
             +++ Py.nl;
           "    super.new(name, build_coverage(UVM_NO_COVERAGE));" +++ Py.nl;
           "  endfunction" +++ Py.nl +++ Py.nl;
           sep2;
           "  // Build Phase" +++ Py.nl;
           sep2;
           "  function void build();" +++ Py.nl;
           "    reg_a  = A ::type_id::create(" +++ Py.dq +++ "reg_a " +++ Py.dq
             +++ ");" +++ Py.nl;
           "    reg_a .build();" +++ Py.nl;
           "    reg_a .configure(this);" +++ Py.nl;
           "    reg_b = B::type_id::create(" +++ Py.dq +++ "reg_b" +++ Py.dq
             +++ ");" +++ Py.nl;
           "    reg_b.build();" +++ Py.nl;
           "    reg_b.configure(this);" +++ Py.nl;
           "    reg_a = A::type_id::create(" +++ Py.dq +++ "reg_a" +++ Py.dq
             +++ ");" +++ Py.nl;
           "    reg_a.build();" +++ Py.nl;
           "    reg_a.configure(this);" +++ Py.nl;
           sep4;
           "    // Memory Map Creation and Register Map" +++ Py.nl;
           sep4;
           "    default_map = create_map(" +++ Py.dq +++ "my_map" +++ Py.dq
             +++ ", 0, 4, UVM_LITTLE_ENDIAN);" +++ Py.nl;
           "    default_map.add_reg(reg_a , 'h0, " +++ Py.dq +++ "RW" +++ Py.dq
             +++ ");" +++ Py.nl;
           "    default_map.add_reg(reg_b, 'h0, " +++ Py.dq +++ "RW" +++ Py.dq
             +++ ");" +++ Py.nl;
           "    default_map.add_reg(reg_a, 'h0, " +++ Py.dq +++ "RW" +++ Py.dq
             +++ ");" +++ Py.nl;
           "    lock_model();" +++ Py.nl;
           "  endfunction" +++ Py.nl;
           "endclass" +++ Py.nl +++ Py.nl ]
    /\ exists registers,
         f = guard ++ registers ++ block_lines ["A "; "B"; "A"].
Proof.
  eexists. split; [reflexivity|].
  split; [vm_compute; reflexivity|].
  split; [vm_compute; reflexivity|].
  split; [vm_compute; reflexivity|].
  set (f := generate (map prepare (body table_padded_A_B_A))).
  exists (firstn (List.length f - 2
                  - List.length (block_lines ["A "; "B"; "A"]))
            (skipn 2 f)).
  vm_compute. reflexivity.
Qed.

(** ** More on the parser: what it accepts and what it returns *)

Lemma span_fst_all p s : all_chars p (fst (Py.span p s)) = true.
Proof.
  induction s as [|c s IH]; simpl; [reflexivity|].
  destruct (p c) eqn:E; [|reflexivity].
  destruct (Py.span p s) as [a b]. simpl in *. now rewrite E, IH.
Qed.

Lemma span_app p s : fst (Py.span p s) +++ snd (Py.span p s) = s.
Proof.
  induction s as [|c s IH]; simpl; [reflexivity|].
  destruct (p c); [|reflexivity].
  destruct (Py.span p s) as [a b]. simpl in *. now rewrite IH.
Qed.

Lemma span_snd_stops p s : stops p (snd (Py.span p s)).
Proof.
  induction s as [|c s IH]; simpl; [exact I|].
  destruct (p c) eqn:E; [|exact E].
  now destruct (Py.span p s) as [a b].
Qed.

Lemma span_snd_lstrip s : snd (Py.span Py.isspace s) = Py.lstrip s.
Proof.
  induction s as [|c s IH]; simpl; [reflexivity|].
  destruct (Py.isspace c); [|reflexivity].
  now destruct (Py.span Py.isspace s) as [a b].
Qed.

Lemma digit_value_bounds c :
  Py.isdigit c = true -> 0 <= Py.digit_value c <= 9.
Proof.
  destruct c as [[] [] [] [] [] [] [] []]; vm_compute;
    intros H; try discriminate H; split; discriminate.
Qed.

Lemma int_from_nonneg s :
  all_chars Py.isdigit s = true ->
  forall acc, 0 <= acc -> 0 <= Py.int_from acc s.
Proof.
  unfold Py.int_from.
  induction s as [|c s IH]; cbn [list_ascii_of_string fold_left all_chars];
    intros Hs acc Hacc; [exact Hacc|].
  apply andb_true_iff in Hs as [Hc Hs].
  apply (IH Hs). pose proof (digit_value_bounds c Hc) as Hd. lia.
Qed.

Lemma match_range_digits s d1 d2 :
  match_range s = Some (d1, d2) ->
  all_chars Py.isdigit d1 = true /\ all_chars Py.isdigit d2 = true.
Proof.
  unfold match_range.
  destruct (Py.span Py.isspace s) as [ws s1].
  destruct s1 as [|c s2]; [discriminate|].
  destruct (Ascii.eqb_spec c "["%char) as [->|Hc].
  2:{ destruct c as [[] [] [] [] [] [] [] []]; try discriminate.
      now destruct Hc. }
  pose proof (span_fst_all Py.isdigit s2) as H1.
  destruct (Py.span Py.isdigit s2) as [e1 s3]. simpl in H1.
  destruct e1 as [|a1 e1]; [discriminate|].
  destruct s3 as [|c3 s4]; [discriminate|].
  destruct (Ascii.eqb_spec c3 ":"%char) as [->|Hc3].
  2:{ destruct c3 as [[] [] [] [] [] [] [] []]; try discriminate.
      now destruct Hc3. }
  pose proof (span_fst_all Py.isdigit s4) as H2.
  destruct (Py.span Py.isdigit s4) as [e2 s5]. simpl in H2.
  destruct e2 as [|a2 e2]; [discriminate|].
  destruct s5 as [|c5 s6]; [discriminate|].
  destruct (Ascii.eqb_spec c5 "]"%char) as [->|Hc5].
  2:{ destruct c5 as [[] [] [] [] [] [] [] []]; try discriminate.
      now destruct Hc5. }
  intros H. injection H as <- <-. now split.
Qed.

Lemma group_int_nonneg d :
  all_chars Py.isdigit d = true ->
  0 <= (if group_truthy (Some d) then group_int (Some d) else 0).
Proof.
  intros Hd. simpl. destruct (Py.truthy d); [|lia].
  now apply int_from_nonneg.
Qed.

(** The name, the rest of the text and the bounds of a text that parses. *)
Lemma parse_field_parts s :
  begins_identifier s = true ->
  exists n l m rest,
    parse_field s =
      (Some n,
       Some (if (negb (m =? 0) && negb (l =? 0))%bool then m - l + 1 else 1),
       Some l, Some m)
    /\ s = n +++ rest
    /\ is_identifier n = true
    /\ stops Py.ident_char rest
    /\ 0 <= l /\ 0 <= m.
Proof.
  intros Hb.
  pose proof (span_fst_all Py.ident_char s) as Hall.
  pose proof (span_app Py.ident_char s) as Happ.
  pose proof (span_snd_stops Py.ident_char s) as Hstop.
  unfold parse_field, re_match.
  destruct s as [|c s]; [discriminate|]. simpl in Hb. rewrite Hb.
  destruct (Py.span Py.ident_char (String c s)) as [g1 rest] eqn:E.
  simpl in Hall, Happ, Hstop.
  assert (Hid : is_identifier g1 = true).
  { unfold is_identifier. rewrite Hall, andb_true_r.
    simpl in E. rewrite (ident_start_char _ Hb) in E.
    destruct (Py.span Py.ident_char s). injection E as <- _. exact Hb. }
  destruct (match_range rest) as [[g2 g3]|] eqn:Er;
    rewrite (strip_identifier _ Hid).
  - destruct (match_range_digits _ _ _ Er) as (H2 & H3).
    eexists g1, _, _, rest. split; [reflexivity|].
    repeat split; auto using group_int_nonneg.
  - exists g1, 0, 0, rest. repeat split; auto; lia.
Qed.

Lemma match_range_spaced ws M L trailing :
  all_chars Py.isspace ws = true -> 0 <= M -> 0 <= L ->
  match_range (ws +++ "[" +++ Py.str_of_int M +++ ":" +++ Py.str_of_int L
               +++ "]" +++ trailing)
  = Some (Py.str_of_int M, Py.str_of_int L).
Proof.
  intros Hws HM HL.
  destruct (str_of_int_digits M HM) as (HdM & HtM).
  destruct (str_of_int_digits L HL) as (HdL & HtL).
  unfold match_range.
  rewrite (span_all Py.isspace ws); [|exact Hws|reflexivity].
  cbn [String.append].
  rewrite (span_all Py.isdigit (Py.str_of_int M)); [|exact HdM|reflexivity].
  destruct (Py.str_of_int M) as [|c s] eqn:EM; [discriminate|].
  cbn [String.append].
  rewrite (span_all Py.isdigit (Py.str_of_int L)); [|exact HdL|reflexivity].
  destruct (Py.str_of_int L) as [|c' s'] eqn:EL; [discriminate|].
  reflexivity.
Qed.

Lemma space_not_ident_char c : Py.isspace c = true -> Py.ident_char c = false.
Proof.
  intros H. destruct (Py.ident_char c) eqn:E; [|reflexivity].
  apply ident_char_not_space in E. congruence.
Qed.

(** X1.  Formatting then parsing.  For an identifier, any run of
    whitespace (none included), two bounds that are not negative, written
    in decimal between brackets, and any text after the closing bracket,
    the parser returns the identifier, the lsb and the msb as written, and
    the size [msb - lsb + 1] when both bounds are not 0, the size 1
    otherwise. *)
Theorem parse_field_spaced_range (id ws : string) (M L : Z) (trailing : string) :
  is_identifier id = true ->
  all_chars Py.isspace ws = true ->
  0 <= M -> 0 <= L ->
  parse_field (spaced_range_text id ws M L trailing)
  = (Some id,
     Some (if (negb (M =? 0) && negb (L =? 0))%bool then M - L + 1 else 1),
     Some L, Some M).
Proof.
  intros Hid Hws HM HL.
  destruct (str_of_int_digits M HM) as (_ & HtM).
  destruct (str_of_int_digits L HL) as (_ & HtL).
  unfold parse_field, spaced_range_text.
  rewrite (re_match_identifier id _ Hid).
  - rewrite (match_range_spaced ws M L trailing Hws HM HL).
    cbn [group_truthy group_int]. rewrite HtM, HtL, (strip_identifier _ Hid).
    now rewrite !int_str_of_int.
  - destruct ws as [|c ws]; [reflexivity|].
    simpl in Hws. apply andb_true_iff in Hws as [Hc _].
    exact (space_not_ident_char _ Hc).
Qed.

Lemma parse_field_spaced_range_witness :
  parse_field "DATA[12:4] payload" = (Some "DATA", Some 9, Some 4, Some 12).
Proof.
  exact (parse_field_spaced_range "DATA" EmptyString 12 4 " payload"
           eq_refl eq_refl ltac:(lia) ltac:(lia)).
Defined.

(** X2.  An identifier followed by text that, past its leading
    whitespace, does not open a bracket parses to that identifier alone,
    with the size 1 and both bit positions 0: of a cell that lists several
    fields only the first name is read. *)
Theorem parse_field_bare_identifier (id rest : string) :
  is_identifier id = true ->
  stops Py.ident_char rest ->
  Py.startswith "[" (Py.lstrip rest) = false ->
  parse_field (id +++ rest) = (Some id, Some 1, Some 0, Some 0).
Proof.
  intros Hid Hstop Hb.
  unfold parse_field. rewrite (re_match_identifier id rest Hid Hstop).
  assert (Hr : match_range rest = None).
  { unfold match_range. rewrite <- span_snd_lstrip in Hb.
    destruct (Py.span Py.isspace rest) as [ws s1]. simpl in Hb.
    destruct s1 as [|c s2]; [reflexivity|].
    destruct c as [[] [] [] [] [] [] [] []]; try reflexivity.
    discriminate Hb. }
  rewrite Hr. cbn [group_truthy]. now rewrite (strip_identifier _ Hid).
Qed.

Lemma parse_field_bare_identifier_witness :
  parse_field "EN, MODE [3:1]" = (Some "EN", Some 1, Some 0, Some 0).
Proof.
  exact (parse_field_bare_identifier "EN" ", MODE [3:1]" eq_refl eq_refl eq_refl).
Defined.

(** X3.  What the parser returns.  Either the text does not begin with a
    letter or an underscore and the four results are [None]; or the four
    results are present, the name is an identifier, it is the longest
    identifier at the start of the text, the two bit positions are not
    negative, and the size is 1 or [msb - lsb + 1].  No other combination
    occurs. *)
Theorem parse_field_result_shape (s : string) :
  (begins_identifier s = false /\ parse_field s = (None, None, None, None))
  \/ (begins_identifier s = true
      /\ exists n w l m rest,
           parse_field s = (Some n, Some w, Some l, Some m)
           /\ s = n +++ rest
           /\ is_identifier n = true
           /\ stops Py.ident_char rest
           /\ 0 <= l /\ 0 <= m
           /\ (w = 1 \/ w = m - l + 1)).
Proof.
  destruct (begins_identifier s) eqn:E.
  - right. split; [reflexivity|].
    destruct (parse_field_parts s E) as (n & l & m & rest & Hp & Hs & Hn & Hr & Hl & Hm).
    eexists n, _, l, m, rest. split; [exact Hp|].
    repeat split; try assumption.
    destruct (negb (m =? 0) && negb (l =? 0))%bool; auto.
  - left. split; [reflexivity|]. now apply parse_field_no_identifier.
Qed.



(** ** The lines of one kind in the output *)

Section Projection.

Variable q : string -> bool.
Variable O : string -> list string.
Variable f : parsed -> list string.
Variable C : list string.

Hypothesis q_open : forall n, filter q (open_lines n) = O n.
Hypothesis q_close : forall fs rw dv,
  filter q (close_lines fs rw dv) = flat_map f (accepted_fields fs) ++ C.
Hypothesis q_close_last : forall fs rw dv,
  filter q (close_last_lines fs rw dv) = flat_map f (accepted_fields fs) ++ C.

Lemma flat_map_accepted_app fs fs' :
  flat_map f (accepted_fields (fs ++ fs'))
  = flat_map f (accepted_fields fs) ++ flat_map f (accepted_fields fs').
Proof. now rewrite accepted_fields_app, flat_map_app. Qed.

Lemma filter_finish_scan rows :
  forall st,
  filter q (finish (fold_left scan_row rows st))
  = filter q (out st)
    ++ (if truthy_name (current_reg st)
        then flat_map f (accepted_fields (field_list st)) else [])
    ++ project O f C (truthy_name (current_reg st)) rows.
Proof.
  induction rows as [|r rows IH]; intros st.
  - simpl. rewrite finish_app, filter_app.
    destruct (truthy_name (current_reg st)); [|reflexivity].
    now rewrite q_close_last.
  - cbn [fold_left project]. rewrite IH.
    destruct (starts_register r) eqn:E.
    + rewrite (scan_row_start _ _ E). cbn [current_reg field_list out].
      rewrite (truthy_name_started _ E), !filter_app, q_open.
      destruct (truthy_name (current_reg st)).
      * rewrite filter_app, q_close. now rewrite <- !app_assoc.
      * now rewrite <- !app_assoc.
    + rewrite (scan_row_continue _ _ E). cbn [current_reg field_list out].
      destruct (truthy_name (current_reg st)); [|reflexivity].
      now rewrite flat_map_accepted_app, <- !app_assoc.
Qed.

Lemma filter_generate rows :
  filter q (generate rows)
  = filter q guard ++ project O f C false rows
    ++ filter q (block_lines (register_names rows)).
Proof.
  unfold generate. rewrite register_block_app, filter_app, filter_finish_scan.
  cbn [initial_scan current_reg out truthy_name]. cbn [app].
  now rewrite <- app_assoc.
Qed.

End Projection.

Lemma flat_map_nil {X Y : Type} (xs : list X) :
  flat_map (fun _ : X => @nil Y) xs = [].
Proof. induction xs as [|x xs IH]; simpl; [reflexivity|exact IH]. Qed.

(** *** Directives *)

Lemma directive_open_lines n : filter is_directive (open_lines n) = [].
Proof. reflexivity. Qed.

Lemma directive_close_lines fs rw dv :
  filter is_directive (close_lines fs rw dv) = [].
Proof.
  rewrite close_lines_eq, flat_map_declare_lines, flat_map_configure_lines.
  rewrite !filter_app.
  rewrite !filter_flat_map_nil; [reflexivity| |];
    intros [[[n w] l] m]; reflexivity.
Qed.

Lemma directive_close_last_lines fs rw dv :
  filter is_directive (close_last_lines fs rw dv) = [].
Proof.
  rewrite close_last_lines_eq, flat_map_last_lines, !filter_app.
  rewrite filter_flat_map_nil; [reflexivity|].
  intros [[[n w] l] m]. reflexivity.
Qed.

Lemma directive_block_lines names :
  filter is_directive (block_lines names) = [].
Proof.
  unfold block_lines, register_block.
  rewrite !write_all_app.
  rewrite !(fold_left_append _ _ instance_step_app).
  rewrite !(fold_left_append _ _ build_step_app).
  rewrite !(fold_left_append _ _ map_step_app).
  rewrite !filter_app.
  rewrite !filter_flat_map_nil; try reflexivity.
Qed.

Lemma project_nothing opened rows :
  project (fun _ => []) (fun _ => []) [] opened rows = [].
Proof.
  revert opened. induction rows as [|r rows IH]; intros opened; simpl.
  - now destruct opened.
  - rewrite !IH, flat_map_nil. now destruct (starts_register r), opened.
Qed.

(** X5.  The include guard is opened and never closed.  Whatever the rows,
    the lines of the output that begin with a backquote are the two lines
    of the guard, [ifndef] and [define], at the head of the file: no
    [endif] is written. *)
Theorem guard_never_closed (rows : list row) :
  filter is_directive (generate (map prepare rows)) = guard
  /\ exists rest, generate (map prepare rows) = guard ++ rest.
Proof.
  split.
  - rewrite (filter_generate is_directive (fun _ => []) (fun _ => []) []).
    + now rewrite project_nothing, directive_block_lines.
    + apply directive_open_lines.
    + intros. now rewrite flat_map_nil, directive_close_lines.
    + intros. now rewrite flat_map_nil, directive_close_last_lines.
  - unfold generate. rewrite register_block_app, finish_app.
    assert (H : forall rs st, exists more,
               out (fold_left scan_row rs st) = out st ++ more).
    { induction rs as [|r rs IH]; intros st; simpl.
      - exists []. now rewrite app_nil_r.
      - destruct (IH (scan_row st r)) as (more & ->).
        destruct (starts_register r) eqn:E.
        + rewrite (scan_row_start _ _ E). simpl.
          destruct (truthy_name (current_reg st)); eexists;
            rewrite <- !app_assoc; reflexivity.
        + rewrite (scan_row_continue _ _ E). simpl. now exists more. }
    destruct (H (map prepare rows) initial_scan) as (more & ->).
    change (out initial_scan) with guard.
    eexists. rewrite <- !app_assoc. reflexivity.
Qed.

(** *** Class headers and class closers *)

Lemma project_class_lines opened rows :
  project (fun n => [class_line n]) (fun _ => []) [] opened rows
  = map (fun r => class_line (Py.strip (s_register_name r)))
      (filter starts_register rows).
Proof.
  revert opened. induction rows as [|r rows IH]; intros opened; simpl.
  - now destruct opened.
  - rewrite !IH, flat_map_nil.
    now destruct (starts_register r), opened.
Qed.

(** X6.  One class per row that starts a register.  The lines of the
    output that open a class are, in the order of the rows, one line per
    row with a register name that is not empty once trimmed, naming the
    trimmed cell, followed by the line of the register block.  A name that
    comes twice opens two classes; no class is written for any other
    row. *)
Theorem class_per_register_row (rows : list row) :
  filter opens_class (generate (map prepare rows))
  = map (fun r => class_line (Py.strip (s_register_name r)))
      (filter starts_register (map prepare rows))
    ++ [block_class_line].
Proof.
  rewrite (filter_generate opens_class (fun n => [class_line n])
             (fun _ => []) []).
  - now rewrite project_class_lines, opens_class_block_lines.
  - apply opens_class_open_lines.
  - intros. now rewrite flat_map_nil, opens_class_close_lines.
  - intros. now rewrite flat_map_nil, opens_class_close_last_lines.
Qed.

Lemma closes_class_close_lines fs rw dv :
  filter closes_class (close_lines fs rw dv) = ["endclass" +++ Py.nl +++ Py.nl].
Proof.
  rewrite close_lines_eq, flat_map_declare_lines, flat_map_configure_lines.
  rewrite !filter_app.
  rewrite !filter_flat_map_nil; [reflexivity| |];
    intros [[[n w] l] m]; reflexivity.
Qed.

Lemma closes_class_close_last_lines fs rw dv :
  filter closes_class (close_last_lines fs rw dv)
  = ["endclass" +++ Py.nl +++ Py.nl].
Proof.
  rewrite close_last_lines_eq, flat_map_last_lines, !filter_app.
  rewrite filter_flat_map_nil; [reflexivity|].
  intros [[[n w] l] m]. reflexivity.
Qed.

Lemma closes_class_block_lines names :
  filter closes_class (block_lines names) = ["endclass" +++ Py.nl +++ Py.nl].
Proof.
  unfold block_lines, register_block.
  rewrite !write_all_app.
  rewrite !(fold_left_append _ _ instance_step_app).
  rewrite !(fold_left_append _ _ build_step_app).
  rewrite !(fold_left_append _ _ map_step_app).
  rewrite !filter_app.
  rewrite !filter_flat_map_nil; try reflexivity.
Qed.

Lemma project_closers x opened rows :
  project (fun _ => []) (fun _ => []) [x] opened rows
  = repeat x (List.length (filter starts_register rows)
              + (if opened then 1 else 0))%nat.
Proof.
  revert opened. induction rows as [|r rows IH]; intros opened; simpl.
  - now destruct opened.
  - rewrite flat_map_nil. destruct (starts_register r); simpl.
    + rewrite IH. destruct opened; simpl.
      * now rewrite Nat.add_1_r.
      * now rewrite Nat.add_0_r, Nat.add_1_r.
    + rewrite IH. now destruct opened.
Qed.

(** X7.  Every class that is opened is closed once.  The lines of the
    output that close a class are as many as the rows that start a
    register, plus one for the register block; so the output has as many
    lines that close a class as lines that open one. *)
Theorem class_closed_once (rows : list row) :
  filter closes_class (generate (map prepare rows))
  = repeat ("endclass" +++ Py.nl +++ Py.nl)
      (List.length (filter starts_register (map prepare rows)) + 1)
  /\ List.length (filter closes_class (generate (map prepare rows)))
     = List.length (filter opens_class (generate (map prepare rows))).
Proof.
  assert (H : filter closes_class (generate (map prepare rows))
              = repeat ("endclass" +++ Py.nl +++ Py.nl)
                  (List.length (filter starts_register (map prepare rows)) + 1)).
  { rewrite (filter_generate closes_class (fun _ => []) (fun _ => [])
               ["endclass" +++ Py.nl +++ Py.nl]).
    - rewrite project_closers, closes_class_block_lines, Nat.add_0_r.
      change (filter closes_class guard) with (@nil string). simpl app.
      now rewrite repeat_app.
    - reflexivity.
    - intros. now rewrite flat_map_nil, closes_class_close_lines.
    - intros. now rewrite flat_map_nil, closes_class_close_last_lines. }
  split; [exact H|].
  rewrite H, repeat_length.
  rewrite (filter_generate opens_class (fun n => [class_line n])
             (fun _ => []) []).
  - rewrite project_class_lines, opens_class_block_lines.
    change (filter opens_class guard) with (@nil string). simpl app.
    now rewrite length_app, length_map.
  - apply opens_class_open_lines.
  - intros. now rewrite flat_map_nil, opens_class_close_lines.
  - intros. now rewrite flat_map_nil, opens_class_close_last_lines.
Qed.

(** *** Field declarations *)

Lemma accepted_field_name fs p :
  In p (accepted_fields fs) ->
  exists n w l m, p = (Some n, Some w, Some l, Some m) /\ is_identifier n = true.
Proof.
  unfold accepted_fields. rewrite filter_In, in_map_iff.
  intros ((field & <- & _) & Hacc).
  destruct (begins_identifier (Py.strip field)) eqn:E.
  - destruct (parse_field_parts _ E) as (n & l & m & rest & -> & _ & Hn & _).
    now eexists n, _, l, m.
  - rewrite (parse_field_no_identifier _ E) in Hacc. discriminate.
Qed.

Lemma ident_char_not_blank c : Py.ident_char c = true -> Ascii.eqb " " c = false.
Proof.
  destruct c as [[] [] [] [] [] [] [] []]; vm_compute; congruence.
Qed.

(** An identifier followed by a blank and an equals sign, or by a dot, does
    not begin with the words of a declaration. *)
Lemma identifier_not_declaration n rest :
  all_chars Py.ident_char n = true ->
  Py.startswith " =" rest = true \/ Py.startswith "." rest = true ->
  Py.startswith "rand uvm_reg_field " (n +++ rest) = false.
Proof.
  intros Hn Hrest.
  destruct n as [|c1 [|c2 [|c3 [|c4 [|c5 n]]]]];
    cbn [String.append Py.startswith];
    cbn [all_chars] in Hn;
    repeat match type of Hn with
           | (_ && _)%bool = true => apply andb_true_iff in Hn as [? Hn]
           end.
  6:{ rewrite (ident_char_not_blank c5) by assumption.
      now rewrite !andb_false_r. }
  all: destruct rest as [|a [|b rest]];
    cbn [Py.startswith] in *; rewrite ?andb_false_r; try reflexivity;
    destruct Hrest as [Hrest|Hrest];
    try discriminate Hrest;
    repeat match type of Hrest with
           | (_ && _)%bool = true => apply andb_true_iff in Hrest as [? Hrest]
           end;
    repeat match goal with
           | H : Ascii.eqb _ ?x = true |- _ =>
               apply Ascii.eqb_eq in H; subst x
           end;
    cbn; rewrite ?andb_false_r; reflexivity.
Qed.

Lemma declares_field_declaration p :
  filter declares_field (declaration p) = declaration p.
Proof. destruct p as [[[n w] l] m]. reflexivity. Qed.

Lemma declares_field_configuration n w l m rw dv :
  is_identifier n = true ->
  filter declares_field (configuration (Some n, w, l, m) rw dv) = [].
Proof.
  unfold is_identifier. intros H. apply andb_true_iff in H as [_ Hn].
  unfold configuration, fmt_name.
  cbn [filter].
  assert (H1 : declares_field
                 ("    " +++ n +++ " = uvm_reg_field::type_id::create(" +++ Py.dq
                  +++ n +++ Py.dq +++ ");" +++ Py.nl) = false).
  { apply (identifier_not_declaration n _ Hn). now left. }
  assert (H2 : declares_field
                 ("    " +++ n +++ ".configure(.parent(this)," +++ Py.nl) = false).
  { apply (identifier_not_declaration n _ Hn). now right. }
  rewrite H1, H2. reflexivity.
Qed.

Lemma declares_field_flat_map_declaration ps :
  filter declares_field (flat_map declaration ps) = flat_map declaration ps.
Proof.
  induction ps as [|p ps IH]; simpl; [reflexivity|].
  now rewrite filter_app, declares_field_declaration, IH.
Qed.

Lemma declares_field_flat_map_configuration fs rw dv :
  filter declares_field
    (flat_map (fun p => configuration p rw dv) (accepted_fields fs)) = [].
Proof.
  assert (H : forall ps,
             (forall p, In p ps -> In p (accepted_fields fs)) ->
             filter declares_field
               (flat_map (fun p => configuration p rw dv) ps) = []).
  { induction ps as [|p ps IH]; intros Hps; [reflexivity|].
    cbn [flat_map]. rewrite filter_app, IH by (intros; apply Hps; now right).
    destruct (accepted_field_name fs p (Hps p (or_introl eq_refl)))
      as (n & w & l & m & -> & Hn).
    now rewrite declares_field_configuration. }
  apply H. auto.
Qed.

Lemma declares_field_close_lines fs rw dv :
  filter declares_field (close_lines fs rw dv)
  = flat_map declaration (accepted_fields fs) ++ [].
Proof.
  rewrite close_lines_eq, flat_map_declare_lines, flat_map_configure_lines.
  rewrite !filter_app, declares_field_flat_map_declaration,
    declares_field_flat_map_configuration.
  reflexivity.
Qed.

Lemma declares_field_flat_map_both fs rw dv :
  filter declares_field
    (flat_map (fun p => declaration p ++ configuration p rw dv)
       (accepted_fields fs))
  = flat_map declaration (accepted_fields fs).
Proof.
  assert (H : forall ps,
             (forall p, In p ps -> In p (accepted_fields fs)) ->
             filter declares_field
               (flat_map (fun p => declaration p ++ configuration p rw dv) ps)
             = flat_map declaration ps).
  { induction ps as [|p ps IH]; intros Hps; [reflexivity|].
    cbn [flat_map].
    rewrite !filter_app, IH by (intros; apply Hps; now right).
    destruct (accepted_field_name fs p (Hps p (or_introl eq_refl)))
      as (n & w & l & m & -> & Hn).
    rewrite declares_field_configuration by exact Hn.
    now rewrite declares_field_declaration, app_nil_r. }
  apply H. auto.
Qed.

Lemma declares_field_close_last_lines fs rw dv :
  filter declares_field (close_last_lines fs rw dv)
  = flat_map declaration (accepted_fields fs) ++ [].
Proof.
  rewrite close_last_lines_eq, flat_map_last_lines.
  rewrite !filter_app, declares_field_flat_map_both.
  reflexivity.
Qed.

Lemma declares_field_block_lines names :
  filter declares_field (block_lines names) = [].
Proof.
  unfold block_lines, register_block.
  rewrite !write_all_app.
  rewrite !(fold_left_append _ _ instance_step_app).
  rewrite !(fold_left_append _ _ build_step_app).
  rewrite !(fold_left_append _ _ map_step_app).
  rewrite !filter_app.
  rewrite !filter_flat_map_nil; try reflexivity.
Qed.

Lemma project_declarations_opened rows :
  project (fun _ => []) declaration [] true rows
  = flat_map declaration (accepted_fields (flat_map field_entry rows)).
Proof.
  induction rows as [|r rows IH]; [reflexivity|].
  cbn [project flat_map]. rewrite IH, accepted_fields_app, flat_map_app.
  now destruct (starts_register r).
Qed.

Lemma project_declarations rows :
  project (fun _ => []) declaration [] false rows
  = flat_map declaration
      (accepted_fields (flat_map field_entry (from_first_register rows))).
Proof.
  induction rows as [|r rows IH]; [reflexivity|].
  cbn [project from_first_register].
  destruct (starts_register r).
  - rewrite project_declarations_opened. cbn [flat_map].
    now rewrite accepted_fields_app, flat_map_app.
  - exact IH.
Qed.

(** X8.  One declaration per accepted field, in the order of the rows.
    The lines of the output that declare a field are the declarations of
    the accepted descriptors of the field cells of the rows, taken in order
    from the first row that starts a register: each such cell that parses
    to a size that is not zero is declared once, a name that comes twice is
    declared twice, and nothing else is declared. *)
Theorem declaration_per_accepted_field (rows : list row) :
  filter declares_field (generate (map prepare rows))
  = flat_map declaration
      (accepted_fields
         (flat_map field_entry (from_first_register (map prepare rows)))).
Proof.
  rewrite (filter_generate declares_field (fun _ => []) declaration []).
  - rewrite project_declarations, declares_field_block_lines.
    change (filter declares_field guard) with (@nil string).
    now rewrite app_nil_r.
  - reflexivity.
  - apply declares_field_close_lines.
  - apply declares_field_close_last_lines.
Qed.

(** ** Tables and groups at the edges *)

(** X9.  A table without a register.  When no row starts a register (the
    table is empty, or every register-name cell is empty or blank), no
    class of a register is written: the output is the guard followed by
    the register block, and every field cell is dropped. *)
Theorem no_register_no_class (rows : list row) :
  forallb (fun r => negb (starts_register (prepare r))) rows = true ->
  generate (map prepare rows)
  = guard ++ block_lines (register_names (map prepare rows)).
Proof.
  intros H. unfold generate. rewrite register_block_app, finish_app.
  assert (H' : forallb (fun r => negb (starts_register r)) (map prepare rows)
               = true).
  { rewrite forallb_forall in *. intros r Hr.
    apply in_map_iff in Hr as (r0 & <- & Hr0). now apply H. }
  destruct (scan_continuation _ H' initial_scan) as (Hc & _ & Ho).
  rewrite Hc, Ho. reflexivity.
Qed.

Lemma no_register_no_class_witness :
  generate (map prepare table_without_register)
  = guard ++ block_lines [EmptyString; "  "].
Proof.
  exact (no_register_no_class table_without_register eq_refl).
Defined.

Lemma close_lines_nothing_accepted fs rw dv :
  accepted_fields fs = [] ->
  close_lines fs rw dv
  = [sep2; sep2; build_line; "  endfunction" +++ Py.nl;
     "endclass" +++ Py.nl +++ Py.nl]
  /\ close_last_lines fs rw dv
     = [sep2; "  endfunction" +++ Py.nl; "endclass" +++ Py.nl +++ Py.nl].
Proof.
  intros H.
  rewrite close_lines_eq, close_last_lines_eq, flat_map_declare_lines,
    flat_map_configure_lines, flat_map_last_lines, H.
  split; reflexivity.
Qed.

(** X10.  A register without an accepted field.  When no entry of the
    field list parses to a size that is not zero (the list is empty, or
    holds only texts that do not parse or ranges of size zero), the
    register is still closed, whatever the access and default cells: in the
    middle of the table by two separators, the opener of the build
    function, [endfunction] and [endclass]; at the end of the table by one
    separator, [endfunction] and [endclass]. *)
Theorem register_without_field (fs : list string) (rw dv : cell) :
  (forall field, In field fs -> ~ nonzero_width field) ->
  close_lines fs rw dv
  = [sep2; sep2; build_line; "  endfunction" +++ Py.nl;
     "endclass" +++ Py.nl +++ Py.nl]
  /\ close_last_lines fs rw dv
     = [sep2; "  endfunction" +++ Py.nl; "endclass" +++ Py.nl +++ Py.nl].
Proof.
  intros H. apply close_lines_nothing_accepted.
  unfold accepted_fields.
  induction fs as [|field fs IH]; [reflexivity|]. simpl.
  destruct (accepted (parse_field (Py.strip field))) eqn:E.
  - exfalso. apply (H field (or_introl eq_refl)).
    now apply accepted_iff_nonzero.
  - apply IH. intros f Hf. apply H. now right.
Qed.

Lemma register_without_field_witness :
  close_lines ["9A"; "A [1:2]"; EmptyString] (Val "RW") NaN
  = [sep2; sep2; build_line; "  endfunction" +++ Py.nl;
     "endclass" +++ Py.nl +++ Py.nl].
Proof.
  refine (proj1 (register_without_field ["9A"; "A [1:2]"; EmptyString]
                   (Val "RW") NaN _)).
  intros field Hin (n & w & l & m & Hp & Hw).
  destruct Hin as [<-|[<-|[<-|[]]]]; vm_compute in Hp;
    try discriminate Hp.
  injection Hp as <- <- <- <-. now apply Hw.
Defined.

(** ** The names of the register block *)

Lemma filter_unseen_absorb x seen l :
  existsb (String.eqb x) seen = true ->
  filter (fun y => negb (existsb (String.eqb y) seen))
    (filter (fun y => negb (existsb (String.eqb y) [x])) l)
  = filter (fun y => negb (existsb (String.eqb y) seen)) l.
Proof.
  intros E. induction l as [|y l IHl]; [reflexivity|].
  assert (Hy : existsb (String.eqb y) [x] = String.eqb y x)
    by (simpl; apply orb_false_r).
  cbn [filter]. rewrite Hy.
  destruct (String.eqb_spec y x) as [->|Hyx]; cbn [negb].
  - rewrite E. cbn [negb]. exact IHl.
  - cbn [filter]. now rewrite IHl.
Qed.

Lemma filter_unseen_cons x seen l :
  filter (fun y => negb (existsb (String.eqb y) seen))
    (filter (fun y => negb (existsb (String.eqb y) [x])) l)
  = filter (fun y => negb (existsb (String.eqb y) (x :: seen))) l.
Proof.
  induction l as [|y l IHl]; [reflexivity|].
  assert (Hy : existsb (String.eqb y) [x] = String.eqb y x)
    by (simpl; apply orb_false_r).
  assert (Hc : existsb (String.eqb y) (x :: seen)
               = (String.eqb y x || existsb (String.eqb y) seen)%bool)
    by reflexivity.
  cbn [filter]. rewrite Hy, Hc.
  destruct (String.eqb_spec y x) as [->|Hyx]; cbn [negb orb].
  - exact IHl.
  - cbn [filter]. now rewrite IHl.
Qed.

Lemma unique_from_seen xs :
  forall seen,
  unique_from seen xs
  = filter (fun y => negb (existsb (String.eqb y) seen)) (unique_from [] xs).
Proof.
  induction xs as [|x xs IH]; intros seen; [reflexivity|].
  cbn [unique_from existsb]. rewrite (IH [x]).
  destruct (existsb (String.eqb x) seen) eqn:E.
  - rewrite (IH seen). cbn [filter]. rewrite E. cbn [negb].
    symmetry. now apply filter_unseen_absorb.
  - rewrite (IH (x :: seen)). cbn [filter]. rewrite E. cbn [negb].
    f_equal. symmetry. apply filter_unseen_cons.
Qed.

Lemma unique_cons x xs :
  unique (x :: xs) = x :: filter (fun y => negb (String.eqb y x)) (unique xs).
Proof.
  unfold unique at 1. cbn [unique_from existsb]. f_equal.
  rewrite unique_from_seen. apply filter_ext. intros y. simpl.
  now rewrite orb_false_r.
Qed.

Lemma unique_In x xs : In x (unique xs) <-> In x xs.
Proof.
  induction xs as [|y xs IH]; [reflexivity|].
  rewrite unique_cons. simpl. rewrite filter_In, IH. split.
  - intros [->|[H _]]; auto.
  - intros [->|H]; [now left|].
    destruct (String.eqb_spec x y) as [->|Hxy]; [now left|]. right. auto.
Qed.

Lemma unique_NoDup xs : NoDup (unique xs).
Proof.
  induction xs as [|y xs IH]; [constructor|].
  rewrite unique_cons. constructor.
  - rewrite filter_In, String.eqb_refl. intros [_ H]. discriminate.
  - now apply NoDup_filter.
Qed.

(** X11.  The names of the register block.  The names over which the
    register block runs its three loops hold each distinct cell of the
    register-name column once, an empty cell counting as the empty text
    and no cell being trimmed; a text is among them exactly when it is the
    cell of some row; and they come in the order in which the cells first
    appear: the cell of the first row, then the names of the other rows
    without it. *)
Theorem register_names_first_seen (rows : list row) :
  NoDup (register_names (map prepare rows))
  /\ (forall n,
        In n (register_names (map prepare rows)) <->
        exists r, In r rows /\ fillna_astype_str (register_name r) = n)
  /\ (forall r rest,
        register_names (map prepare (r :: rest))
        = fillna_astype_str (register_name r)
          :: filter (fun n => negb (String.eqb n
                                      (fillna_astype_str (register_name r))))
               (register_names (map prepare rest))).
Proof.
  unfold register_names. split; [apply unique_NoDup|]. split.
  - intros n. rewrite unique_In, map_map, in_map_iff. split.
    + intros (r & Hn & Hr). now exists r.
    + intros (r & Hr & Hn). now exists r.
  - intros r rest. simpl. apply unique_cons.
Qed.

(** ** Cells that never reach the output *)

Lemma scan_row_same_but_cells st st' r :
  same_but_cells st st' -> scan_row st r = scan_row st' r.
Proof.
  intros (Hc & Hf & Ho).
  destruct (starts_register r) eqn:E.
  - now rewrite !(scan_row_start _ _ E), Hc, Hf, Ho.
  - now rewrite !(scan_row_continue _ _ E), Hc, Hf, Ho.
Qed.

Lemma scan_unopened_prefix rows :
  forallb (fun r => negb (starts_register (prepare r))) rows = true ->
  current_reg (fold_left scan_row (map prepare rows) initial_scan) = None.
Proof.
  intros H.
  assert (H' : forallb (fun r => negb (starts_register r)) (map prepare rows)
               = true).
  { rewrite forallb_forall in *. intros r Hr.
    apply in_map_iff in Hr as (r0 & <- & Hr0). now apply H. }
  now destruct (scan_continuation _ H' initial_scan) as (Hc & _).
Qed.

(** X12.  Access and default cells that are never read.  Of a row that is
    not the last one of the table, the access cell and the default-value
    cell reach the output only if the row starts a register while another
    one is open.  So, for a row that starts no register, or a row above
    which no register has started, that has a row below it: two tables that
    differ only in these two cells of that row give the same run. *)
Theorem access_of_row_ignored
  (cols : list (option string)) (rows1 : list row) (r r' next : row)
  (rows2 : list row) (output_file : string) :
  register_name r = register_name r' ->
  fields r = fields r' ->
  starts_register (prepare r) = false
  \/ forallb (fun x => negb (starts_register (prepare x))) rows1 = true ->
  excel_to_uvm_ral (mkFrame cols (rows1 ++ r :: next :: rows2)) output_file
  = excel_to_uvm_ral (mkFrame cols (rows1 ++ r' :: next :: rows2)) output_file.
Proof.
  intros Hn Hf Hcase. apply excel_to_uvm_ral_body.
  unfold generate, register_names.
  rewrite !map_app, !fold_left_app. cbn [map fold_left].
  assert (Hnames : s_register_name (prepare r) = s_register_name (prepare r'))
    by (simpl; now rewrite Hn).
  assert (Hfields : field_entry (prepare r) = field_entry (prepare r'))
    by (unfold field_entry; simpl; now rewrite Hf).
  assert (Hstart : starts_register (prepare r') = starts_register (prepare r))
    by (unfold starts_register; now rewrite Hnames).
  rewrite Hnames. f_equal. f_equal. f_equal.
  apply scan_row_same_but_cells.
  set (st := fold_left scan_row (map prepare rows1) initial_scan).
  destruct (starts_register (prepare r)) eqn:E.
  - destruct Hcase as [Hcase|Hcase]; [discriminate|].
    assert (Hc : current_reg st = None) by now apply scan_unopened_prefix.
    rewrite (scan_row_start _ _ E), (scan_row_start _ _ Hstart), Hc.
    unfold same_but_cells. cbn [current_reg field_list out truthy_name].
    rewrite Hnames, Hfields. now repeat split.
  - rewrite (scan_row_continue _ _ E), (scan_row_continue _ _ Hstart).
    unfold same_but_cells. cbn [current_reg field_list out].
    rewrite Hfields. now repeat split.
Qed.

Lemma access_of_row_ignored_witness :
  excel_to_uvm_ral
    (mkFrame full_header
       ([] ++ mk_row (Val "CTRL") (Val "RW") (Val "EN [3:1]") (Val "5")
           :: mk_row (Val "STATUS") (Val "RO") (Val "BUSY") NaN :: []))
    "uvm_ral_model.sv"
  = excel_to_uvm_ral
      (mkFrame full_header
         ([] ++ mk_row (Val "CTRL") (Val "WO") (Val "EN [3:1]") (Val "9")
             :: mk_row (Val "STATUS") (Val "RO") (Val "BUSY") NaN :: []))
      "uvm_ral_model.sv".
Proof.
  exact (access_of_row_ignored full_header []
           (mk_row (Val "CTRL") (Val "RW") (Val "EN [3:1]") (Val "5"))
           (mk_row (Val "CTRL") (Val "WO") (Val "EN [3:1]") (Val "9"))
           (mk_row (Val "STATUS") (Val "RO") (Val "BUSY") NaN)
           [] "uvm_ral_model.sv" eq_refl eq_refl (or_intror eq_refl)).
Defined.

(** ** A table with all its columns *)




(** ** Whitespace beyond the blank

    [str.strip] and the regex class [\s] take U+0085 and U+00A0 as they
    take the blank; the three facts below show it on a field text, a
    register-name cell and a label of the first row. *)

Lemma no_break_space_before_range :
  parse_field ("EN" +++ String (ascii_of_nat 160) "[3:1]")
  = (Some "EN", Some 3, Some 1, Some 3)
  /\ field_entry (prepare (mk_row NaN NaN
                             (Val (String (ascii_of_nat 160) "EN [3:1]")) NaN))
     = ["EN [3:1]"].
Proof. split; vm_compute; reflexivity. Qed.

Lemma no_break_space_starts_no_register :
  starts_register
    (prepare (mk_row (Val (String (ascii_of_nat 160) EmptyString)) NaN NaN NaN))
  = false
  /\ starts_register
       (prepare (mk_row (Val (String (ascii_of_nat 133) "CTRL")) NaN NaN NaN))
     = true.
Proof. split; vm_compute; reflexivity. Qed.

Lemma no_break_space_in_label :
  columns (mkFrame [Some ("Offset" +++ String (ascii_of_nat 160) EmptyString)] [])
  = [Some "Offset"].
Proof. vm_compute. reflexivity. Qed.
